(** * The mentoring platform's web client: sign-up, conversation list and
    conversation taking pages.

    The pages are Preact function components.  Each one owns a few state
    cells ([useState], [useReducer]), talks to the REST backend through the
    wrapped [fetch] of [@/utilities/http] and navigates with [route].  The
    development below embeds the three pages of [source/pages] whose text is
    available ([signup.tsx], [conversations/list.tsx],
    [conversations/take.tsx]) as programs of a small state-and-exception
    monad over a world that records the component state, the network calls
    issued, the navigations, the timers and the storage writes. *)

From stdpp Require Import gmap strings list sorting.
From Stdlib Require Import ZArith Lia Ascii DecimalString.

Open Scope Z_scope.
Open Scope nat_scope.

(** ** JavaScript strings

    A JavaScript string is a sequence of UTF-16 code units; [length],
    [includes] and regular expressions without the [u] flag all work on
    code units. *)

Abbreviation code_unit := N (only parsing).
Abbreviation jsstring := (list N) (only parsing).

(** A string literal of the source (ASCII) as a JavaScript string. *)
Definition js (s : string) : jsstring :=
  (λ a, Ascii.N_of_ascii a) <$> String.list_ascii_of_string s.

Arguments js : simpl never.

(** [a === b] on strings *)
Fixpoint eqb_js (a b : jsstring) : bool :=
  match a, b with
  | [], [] => true
  | x :: a', y :: b' => (x =? y)%N && eqb_js a' b'
  | _, _ => false
  end.

(** [haystack.startsWith(needle)] *)
Fixpoint startsWith (needle haystack : jsstring) : bool :=
  match needle, haystack with
  | [], _ => true
  | _ :: _, [] => false
  | a :: needle', b :: haystack' => (a =? b)%N && startsWith needle' haystack'
  end.

(** [haystack.includes(needle)] *)
Fixpoint includes (needle haystack : jsstring) : bool :=
  startsWith needle haystack ||
  match haystack with
  | [] => false
  | _ :: haystack' => includes needle haystack'
  end.

(** ** Regular expressions

    The fragment of ECMAScript regular expressions that [signup.tsx] uses:
    the assertions [^] and [$] (no [m] flag, so they only hold at the two
    ends of the input), a character class under a greedy quantifier, the
    negative lookahead and concatenation. *)
Module RegExp.

(** LineTerminator: LF, CR, LS, PS.  The class [.] is its complement. *)
Definition is_line_terminator (c : code_unit) : bool :=
  ((c =? 0x0A) || (c =? 0x0D) || (c =? 0x2028) || (c =? 0x2029))%N.

(** WhiteSpace: TAB, VT, FF, ZWNBSP and the space separators (Zs). *)
Definition is_white_space (c : code_unit) : bool :=
  ((c =? 0x09) || (c =? 0x0B) || (c =? 0x0C) || (c =? 0xFEFF)
   || (c =? 0x20) || (c =? 0xA0) || (c =? 0x1680)
   || ((0x2000 <=? c) && (c <=? 0x200A))
   || (c =? 0x202F) || (c =? 0x205F) || (c =? 0x3000))%N.

(** [\s], [\S] and [.] *)
Definition space (c : code_unit) : bool :=
  is_white_space c || is_line_terminator c.
Definition non_space (c : code_unit) : bool := negb (space c).
Definition dot (c : code_unit) : bool := negb (is_line_terminator c).
Definition char (x : code_unit) (c : code_unit) : bool := (c =? x)%N.

Inductive regex : Type :=
| AssertStart                                   (* ^ *)
| AssertEnd                                     (* $ *)
| Repeat (cls : code_unit → bool) (lo : nat) (hi : option nat)
                                                (* cls{lo,hi}, cls* , cls+ *)
| NegLookahead (r : regex)                      (* (?!r) *)
| Concat (r1 r2 : regex).

(** A matcher state: the index reached in the input and what is left
    of the input from there. *)
Abbreviation cursor := (nat * list N)%type (only parsing).

Definition may_take (hi : option nat) : bool :=
  match hi with None => true | Some h => negb (h =? 0) end.

(** The cursors a greedy quantified class can stop at, longest first. *)
Fixpoint repeat_ends (cls : code_unit → bool) (lo : nat) (hi : option nat)
    (i : nat) (s : jsstring) : list cursor :=
  match s with
  | c :: s' =>
      if cls c && may_take hi
      then repeat_ends cls (pred lo) (pred <$> hi) (S i) s'
      else []
  | [] => []
  end ++ (if lo =? 0 then [(i, s)] else []).

(** All the cursors at which a match of [r] started at [st] can end,
    in the order the backtracking matcher tries them. *)
Fixpoint run (r : regex) (st : cursor) : list cursor :=
  match r with
  | AssertStart => if st.1 =? 0 then [st] else []
  | AssertEnd => match st.2 with [] => [st] | _ :: _ => [] end
  | Repeat cls lo hi => repeat_ends cls lo hi st.1 st.2
  | NegLookahead r' => match run r' st with [] => [st] | _ :: _ => [] end
  | Concat r1 r2 => st' ← run r1 st; run r2 st'
  end.

Definition matches_at (r : regex) (s : jsstring) (k : nat) : bool :=
  match run r (k, drop k s) with [] => false | _ :: _ => true end.

(** [r] has a match that starts at [st]. *)
Definition accepts (r : regex) (st : cursor) : Prop := run r st ≠ [].

(** [r.test(s)]: is there a match starting at some index of [s]? *)
Definition test (r : regex) (s : jsstring) : bool :=
  existsb (matches_at r s) (seq 0 (S (length s))).

End RegExp.

(** ** The API's record shapes ([@/api]) *)
Module Api.

(** Modelled from the spec: the declarations of [User] and [Tokens] in
    [@/api] are missing; the spec has them "consumed as opaque JSON", so
    both are JSON values. *)
#[warnings="-register-all"]
Inductive json : Type :=
| JNull
| JBool (b : bool)
| JNumber (n : Z)
| JString (s : jsstring)
| JArray (items : list json)
| JObject (members : list (jsstring * json)).

Definition User := json.
Definition Tokens := json.

Module Attribute.
(** Modelled from the spec: the declaration of [Attribute] in [@/api] is
    missing; an option is "optionally carrying a free-text attribute
    value", and the take page reads and writes the attribute's [value]. *)
Record t := { value : jsstring }.
End Attribute.

Module Option.
(** Modelled from the spec: the declaration of the option types in [@/api]
    is missing; the take page renders the types ['select'] and
    ['input']. *)
Inductive kind := select | input.
(** Modelled from the spec: the declaration of [Option] in [@/api] is
    missing; "a choice within a question, optionally carrying a free-text
    attribute value", with the fields the take page reads: a [position],
    a [type], a [text] and the optional [attribute]. *)
Record t := {
  position : Z;
  type : kind;
  text : jsstring;
  attribute : option Attribute.t;
}.
End Option.

Module Question.
(** Modelled from the spec: the declaration of [Question] in [@/api] is
    missing; "a single prompt with one or more selectable or free-text
    options, flagged as first/last in sequence", with the fields the take
    page reads. *)
Record t := {
  id : jsstring;
  text : jsstring;
  first : bool;
  last : bool;
  options : list Option.t;
}.
End Question.

Module Conversation.
(** Modelled from the spec: the declaration of [Conversation] in [@/api]
    is missing; "a named, server-defined sequence of questions", with the
    fields the list and take pages read. *)
Record t := {
  id : jsstring;
  name : jsstring;
  description : jsstring;
  tags : list jsstring;
  once : bool;
}.
End Conversation.

End Api.

(** ** The sign-up form ([interface SignUpForm], [interface SignUpFormAction])

    The form state is a [Partial<SignUpForm>]: a JavaScript object with at
    most the four keys of [SignUpForm], each holding a string.  A key that
    is absent and a key that holds [undefined] read the same, so the object
    is a finite map from the keys to strings. *)
Module SignUpForm.

Inductive key := name | email | password | code.

#[global] Instance key_eq_dec : EqDecision key.
Proof. solve_decision. Defined.

#[global] Instance key_countable : Countable key.
Proof.
  refine (inj_countable'
    (λ k, match k with name => 0 | email => 1 | password => 2 | code => 3 end)
    (λ n, match n with 0 => name | 1 => email | 2 => password | _ => code end)
    _).
  by intros [].
Defined.

Record action := {
  type : jsstring;
  field : key;
  payload : option jsstring;
}.

End SignUpForm.

(** ** The HTTP utility ([@/utilities/http]) *)
Module Http.
Import Api.

Inductive verb := get | post | put.

(** The values the pages pass as [json]. *)
Inductive body :=
| answer (position : Z) (input : option jsstring)
    (* { position, input } *)
| form (fields : gmap SignUpForm.key jsstring)
    (* signUpForm *)
| join (code : jsstring).
    (* { code } *)

Record request := {
  url : jsstring;
  method : verb;
  json : option body;
}.

(** Modelled from the spec: the declaration of the error response in
    [@/utilities/http] is missing; "an error object carrying a
    machine-readable code and human-readable message". *)
Record error := {
  code : jsstring;
  message : jsstring;
}.

(** Modelled from the spec: the result type of [fetch<T>] in
    [@/utilities/http] is missing; "responses are either a success payload
    or an error object": [T | ErrorResponse]. *)
Inductive response (T : Type) :=
| success (data : T)
| failure (error : error).
Arguments success {T} data.
Arguments failure {T} error.

(** [isErrorResponse(response)].  The pages below branch on a response by
    pattern matching, which hands them the payload or the error at once. *)
Definition isErrorResponse {T} (r : response T) : bool :=
  match r with failure _ => true | success _ => false end.

(** The type arguments [fetch] is called at. *)
Inductive payload :=
| conversation_payload        (* { conversation: Conversation } *)
| questions_payload           (* { questions: Question[] } *)
| conversations_payload       (* { conversations: Conversation[] } *)
| next_payload                (* { next?: Question } *)
| session_payload             (* { user: User; tokens: Tokens } *)
| unknown_payload.            (* no type argument *)

Definition data_of (p : payload) : Type :=
  match p with
  | conversation_payload => Conversation.t
  | questions_payload => list Question.t
  | conversations_payload => list Conversation.t
  | next_payload => option Question.t
  | session_payload => (User * Tokens)%type
  | unknown_payload => unit
  end.

(** The backend, as the client sees it: what it answers to the [n]-th
    call of the page (counted from 0) when that call is [req]. *)
Definition server : Type :=
  ∀ p : payload, nat → request → response (data_of p).

End Http.

(** ** The runtime: component state, effects and exceptions *)
Module Runtime.
Import Api Http.

Inductive exception :=
| Error (message : jsstring)       (* [throw new Error(message)] *)
| TypeError (property : jsstring). (* reading [property] of [undefined] *)

(** [error.message] in a [catch] handler; for a [TypeError] the text is
    the engine's. *)
Definition message_of (e : exception) : jsstring :=
  match e with
  | Error m => m
  | TypeError p =>
      js "Cannot read properties of undefined (reading '" ++ p ++ js "')"
  end.

(** The callback handed to [setTimeout]. *)
Inductive task := route_task (url : jsstring) (replace : bool).

Record world (S : Type) := World {
  state : S;                              (* the component's state cells *)
  requests : list request;                (* [fetch] calls, oldest first *)
  routes : list (jsstring * bool);        (* [route(url, replace)] calls *)
  timeouts : list (task * Z);             (* [setTimeout(task, ms)] calls *)
  stored : list (jsstring * Api.json);       (* [storage.set(key, value)] *)
}.
Arguments World {S}.
Arguments state {S}.
Arguments requests {S}.
Arguments routes {S}.
Arguments timeouts {S}.
Arguments stored {S}.

Definition boot {S} (s : S) : world S := World s [] [] [] [].

Inductive outcome (A : Type) :=
| returned (a : A)
| thrown (e : exception).
Arguments returned {A} a.
Arguments thrown {A} e.

Definition M (S A : Type) : Type := world S → outcome A * world S.

Section monad.
Context {S : Type}.

Definition ret {A} (a : A) : M S A := λ w, (returned a, w).

Definition bind {A B} (m : M S A) (k : A → M S B) : M S B :=
  λ w, match m w with
       | (returned a, w') => k a w'
       | (thrown e, w') => (thrown e, w')
       end.

Definition throw {A} (e : exception) : M S A := λ w, (thrown e, w).

(** [m.catch(handler)] / [try { m } catch (e) { handler(e) }] *)
Definition catch {A} (m : M S A) (handler : exception → M S A) : M S A :=
  λ w, match m w with
       | (returned a, w') => (returned a, w')
       | (thrown e, w') => handler e w'
       end.

(** [x!.property]: the non-null assertion is erased by the compiler,
    and reading a property of [undefined] throws. *)
Definition non_null {A} (x : option A) (property : jsstring) : M S A :=
  match x with
  | Some a => ret a
  | None => throw (TypeError property)
  end.

Definition modify (f : S → S) : M S unit :=
  λ w, (returned tt,
        World (f (state w)) (requests w) (routes w) (timeouts w) (stored w)).

(** [await fetch<T>(request)] against the backend [backend] *)
Definition fetch (backend : server) (p : payload) (req : request)
    : M S (response (data_of p)) :=
  λ w, (returned (backend p (length (requests w)) req),
        World (state w) (requests w ++ [req]) (routes w) (timeouts w)
              (stored w)).

(** [route(url, replace)] *)
Definition route (url : jsstring) (replace : bool) : M S unit :=
  λ w, (returned tt,
        World (state w) (requests w) (routes w ++ [(url, replace)])
              (timeouts w) (stored w)).

(** [setTimeout(callback, ms)] *)
Definition setTimeout (callback : task) (ms : Z) : M S unit :=
  λ w, (returned tt,
        World (state w) (requests w) (routes w)
              (timeouts w ++ [(callback, ms)]) (stored w)).

(** What a timer does when it fires. *)
Definition run_task (callback : task) : M S unit :=
  match callback with route_task url replace => route url replace end.

(** [storage.set(key, value)] *)
Definition storage_set (key : jsstring) (value : Api.json) : M S unit :=
  λ w, (returned tt,
        World (state w) (requests w) (routes w) (timeouts w)
              (stored w ++ [(key, value)])).

End monad.

(** The programs are written with stdpp's monad notation:
    [x ← m; k] and [m ;; k]. *)
#[global] Instance M_ret {S} : MRet (M S) := λ A, ret.
#[global] Instance M_bind {S} : MBind (M S) := λ A B k m, bind m k.

End Runtime.

(** ** The error texts ([errors] of [@/utilities/text])

    The lookup table itself is not part of the sources at hand; the pages
    only call [errors.get(key)] on it, so every page takes the table as a
    parameter. *)
Abbreviation error_table := (gmap (list N) (list N)) (only parsing).

(** [new URLSearchParams(window.location.search)]: the query parameters in
    the order they are written; [get] returns the first value of a key, or
    [null]. *)
Abbreviation search_params := (list (list N * list N)) (only parsing).

Definition search_get (key : jsstring) (q : search_params) : option jsstring :=
  snd <$> List.find (λ kv, bool_decide (kv.1 = key)) q.

(** ** [source/pages/signup.tsx] *)
Module SignUp.
Import Api Http Runtime SignUpForm.

Record State := {
  signUpForm : gmap key jsstring;
  currentError : option jsstring;
  isLoading : bool;
}.

(** The reducer of the form. *)
Definition reducer (state : gmap key jsstring) (action : action)
    : gmap key jsstring :=
  if bool_decide (type action = js "update-field") then
    match payload action with
    | None => state                               (* break; return state *)
    | Some text => <[field action := text]> state (* {...state, [field]: payload} *)
    end
  else state.                                     (* default: return state *)

Definition setErrorMessage (message : option jsstring) : M State unit :=
  modify (λ s, {| signUpForm := signUpForm s; currentError := message;
                  isLoading := isLoading s |}).

Definition setLoading (loading : bool) : M State unit :=
  modify (λ s, {| signUpForm := signUpForm s; currentError := currentError s;
                  isLoading := loading |}).

(** [dispatch(action)] *)
Definition dispatch (action : action) : M State unit :=
  modify (λ s, {| signUpForm := reducer (signUpForm s) action;
                  currentError := currentError s;
                  isLoading := isLoading s |}).

(** The three patterns of [validation]. *)
Module validation.
Import RegExp.
(** [/^(?!\s*$).+/] *)
Definition name : regex :=
  Concat AssertStart
    (Concat (NegLookahead (Concat (Repeat space 0 None) AssertEnd))
            (Repeat dot 1 None)).
(** [/^\S+@\S+$/] *)
Definition email : regex :=
  Concat AssertStart
    (Concat (Repeat non_space 1 None)
      (Concat (Repeat (char 0x40%N) 1 (Some 1))
        (Concat (Repeat non_space 1 None) AssertEnd))).
(** [/^.{6,256}$/] *)
Definition password : regex :=
  Concat AssertStart (Concat (Repeat dot 6 (Some 256)) AssertEnd).
End validation.

(** [if (signUpForm.code)]: a string is truthy when it is not empty. *)
Definition truthy (s : option jsstring) : option jsstring :=
  match s with
  | Some (c :: s') => Some (c :: s')
  | Some [] | None => None
  end.

Section page.
Context (errors : error_table) (backend : server) (search : search_params).

(** [passedOnError ? errors.get(passedOnError) : undefined] *)
Definition initialError : option jsstring :=
  match truthy (search_get (js "error") search) with
  | Some passedOnError => errors !! passedOnError
  | None => None
  end.

Definition initialState : State :=
  {| signUpForm := ∅; currentError := initialError; isLoading := false |}.

(** The head of the component: a user who is already signed in is sent
    away and nothing is rendered. *)
Definition SignUpPage (isAuthenticated : bool) : M State bool :=
  if isAuthenticated then
    route (default (js "/") (search_get (js "redirect") search)) true ;;
    mret false
  else mret true.

(** [signUp], run from a render in which the form is [signUpForm]. *)
Definition signUp (signUpForm : gmap key jsstring) : M State unit :=
  setLoading true ;;
  setErrorMessage None ;;
  if negb (RegExp.test validation.name (default [] (signUpForm !! name)))
  then
    setLoading false ;;
    setErrorMessage (errors !! js "incomplete-input")
  else if negb (RegExp.test validation.email
                  (default [] (signUpForm !! email)))
  then
    setLoading false ;;
    setErrorMessage (errors !! js "invalid-email-address")
  else if negb (RegExp.test validation.password
                  (default [] (signUpForm !! password)))
  then
    setLoading false ;;
    setErrorMessage (errors !! js "weak-password")
  else
    signUpResponse ← fetch backend session_payload
      {| url := js "/auth/signup"; method := post;
         json := Some (form signUpForm) |};
    match signUpResponse with
    | failure error =>
        (if bool_decide (Http.code error = js "improper-payload") then
           setErrorMessage
             (if includes (js "password") (message error)
              then errors !! js "weak-password"
              else errors !! js "invalid-email-address")
         else if bool_decide (Http.code error = js "entity-already-exists")
         then setErrorMessage (errors !! js "user-already-exists")
         else setErrorMessage (Some (message error))) ;;
        setLoading false
    | success (user, tokens) =>
        storage_set (js "user") user ;;
        storage_set (js "tokens") tokens ;;
        let finish : M State unit :=
          setLoading false ;;
          route (default (js "/") (search_get (js "redirect") search)) true
        in
        match truthy (signUpForm !! code) with
        | Some code' =>
            codeResponse ← fetch backend unknown_payload
              {| url := js "/groups/join"; method := put;
                 json := Some (join code') |};
            match codeResponse with
            | failure error =>
                setErrorMessage (Some (message error)) ;;
                setTimeout (route_task (js "/groups") true) 2500
            | success _ => finish
            end
        | None => finish
        end
    end.

End page.
End SignUp.

(** ** Rendering: virtual DOM nodes

    What a component returns, after Preact's [h(type, props, children)].
    A [type] that starts with a capital letter is a component of
    [@/components] (their sources, but for [RadioButton], are not at hand:
    they stay unexpanded), any other is an HTML element.  Event handlers
    are data of a type [H] that each page defines together with what the
    handler does when it fires. *)
Module VDom.

Inductive prop (H : Type) :=
| str (s : jsstring)
| opt (s : option jsstring)
| flag (b : bool)
| inner_html (s : option jsstring)       (* dangerouslySetInnerHTML *)
| on (handler : H).
Arguments str {H} s.
Arguments opt {H} s.
Arguments flag {H} b.
Arguments inner_html {H} s.
Arguments on {H} handler.

#[warnings="-register-all"]
Inductive vnode (H : Type) :=
| text (s : jsstring)
| h (type : string) (props : list (string * prop H))
    (children : list (vnode H))
| fragment (children : list (vnode H))
| nothing.                                (* [false], [undefined] *)
Arguments text {H} s.
Arguments h {H} type props children.
Arguments fragment {H} children.
Arguments nothing {H}.

Definition get_prop {H} (key : string) (props : list (string * prop H))
    : option (prop H) :=
  snd <$> List.find (λ kv, String.eqb kv.1 key) props.

(** The class names of a [class] attribute. *)
Fixpoint words (acc : jsstring) (s : jsstring) : list jsstring :=
  match s with
  | [] => match acc with [] => [] | _ :: _ => [acc] end
  | c :: s' =>
      if (c =? 0x20)%N
      then match acc with [] => words [] s' | _ :: _ => acc :: words [] s' end
      else words (acc ++ [c]) s'
  end.

(** Is the node taken out of the layout by the [hidden] utility class? *)
Definition is_hidden {H} (props : list (string * prop H)) : bool :=
  match get_prop "class" props with
  | Some (str c) => existsb (eqb_js (js "hidden")) (words [] c)
  | _ => false
  end.

(** The children of a node, with fragments spliced in and the values
    that render nothing dropped. *)
Fixpoint flatten {H} (v : vnode H) : list (vnode H) :=
  match v with
  | fragment children => mbind flatten children
  | nothing => []
  | _ => [v]
  end.

Definition children_of {H} (v : vnode H) : list (vnode H) :=
  match v with
  | h _ _ children => mbind flatten children
  | _ => []
  end.

(** All the nodes of type [type] below (and including) [v], in document
    order. *)
Fixpoint select_type {H} (type : string) (v : vnode H) : list (vnode H) :=
  match v with
  | h type' props children =>
      (if String.eqb type' type then [v] else [])
      ++ mbind (select_type type) children
  | fragment children => mbind (select_type type) children
  | text _ | nothing => []
  end.

(** Does the node carry the given [id]? *)
Definition has_id {H} (id : jsstring) (v : vnode H) : bool :=
  match v with
  | h _ props _ =>
      match get_prop "id" props with
      | Some (str i) => eqb_js i id
      | _ => false
      end
  | _ => false
  end.

(** All the nodes with the given [id] below (and including) [v], in
    document order. *)
Fixpoint by_id {H} (id : jsstring) (v : vnode H) : list (vnode H) :=
  (if has_id id v then [v] else [])
  ++ match v with
     | h _ _ children => mbind (by_id id) children
     | fragment children => mbind (by_id id) children
     | text _ | nothing => []
     end.

(** The text a node shows. *)
Fixpoint text_content {H} (v : vnode H) : jsstring :=
  match v with
  | text s => s
  | h _ _ children => mbind text_content children
  | fragment children => mbind text_content children
  | nothing => []
  end.

Definition props_of {H} (v : vnode H) : list (string * prop H) :=
  match v with h _ props _ => props | _ => [] end.

Definition action_of {H} (v : vnode H) : option H :=
  match get_prop "action" (props_of v) with
  | Some (on handler) => Some handler
  | _ => None
  end.

End VDom.

(** ** [Array.prototype.sort]

    The built-in is specified by its result: with a consistent comparison
    function the array ends up ordered by it, and elements that compare
    equal keep their relative order.  A stable insertion sort computes that
    result. *)
Section sort.
Context {A : Type} (comparefn : A → A → Z).

Fixpoint sort_insert (x : A) (l : list A) : list A :=
  match l with
  | [] => [x]
  | y :: l' =>
      if (comparefn x y <=? 0)%Z then x :: y :: l'
      else y :: sort_insert x l'
  end.

Fixpoint sort (l : list A) : list A :=
  match l with
  | [] => []
  | x :: l' => sort_insert x (sort l')
  end.

(** [a] may stand before [b]: the comparison is negative or zero. *)
Definition before (a b : A) : Prop := (comparefn a b <= 0)%Z.
End sort.

(** ** [source/pages/conversations/list.tsx] *)
Module ConversationList.
Import Api Http Runtime VDom.

Record State := {
  currentError : option jsstring;
  conversations : option (list Conversation.t);
}.

Definition initialState : State :=
  {| currentError := None; conversations := None |}.

Definition setErrorMessage (message : option jsstring) : M State unit :=
  modify (λ s, {| currentError := message;
                  conversations := conversations s |}).

Definition setConversations (list : option (list Conversation.t))
    : M State unit :=
  modify (λ s, {| currentError := currentError s; conversations := list |}).

(** What the buttons of the page do. *)
Inductive handler := route_to (url : jsstring).

Definition fire (h : handler) : M State unit :=
  match h with route_to url => route url false end.

(** [boolean.toString()] *)
Definition toString (b : bool) : jsstring :=
  if b then js "true" else js "false".

Definition ConversationItem (conversation : Conversation.t) (groot : bool)
    : vnode handler :=
  h "tr" [("class", str (js "border-b dark:border-gray-700 text-sm"))] [
    h "td" [("class", str (js "p-2"))] [
      h "span" [("class", str (js "text-gray-800 dark:text-gray-300"))]
        [text (Conversation.name conversation)]];
    h "td" [("class", str (js "p-2"))] [
      h "span" [("class", str (js "text-gray-600 dark:text-gray-400"))]
        [text (Conversation.description conversation)]];
    (if groot then
       fragment [
         h "td" [("class", str (js "p-2"))]
           ((λ tag, h "Chip" [("value", str tag)] [])
              <$> Conversation.tags conversation);
         h "td" [("class", str (js "p-2"))]
           [text (toString (Conversation.once conversation))]]
     else nothing);
    h "td" [("class", str (js "h-4 p-2 text-right"))] [
      h "Button" [
        ("id", str (js "take-conversation-button"));
        ("text", str (js "Take"));
        ("action", on (route_to
           (js "/conversations/" ++ Conversation.id conversation)));
        ("type", str (js "text"));
        ("class", str (js "col-span-1 w-fit text-secondary dark:text-secondary-dark font-semibold"))
      ] [];
      h "Button" [
        ("id", str (js "edit-conversation-button"));
        ("text", str (js "Edit"));
        ("action", on (route_to
           (js "/conversations/" ++ Conversation.id conversation
            ++ js "/edit")));
        ("type", str (js "text"));
        ("class", str (js "col-span-1 w-fit text-secondary dark:text-secondary-dark font-semibold "
                       ++ (if groot then js "" else js "hidden")))
      ] []]].

Section page.
Context (localeCompare : jsstring → jsstring → Z) (backend : server).

Definition fetchConversations : M State (list Conversation.t) :=
  response ← fetch backend conversations_payload
    {| url := js "/conversations"; method := get; json := None |};
  match response with
  | failure error => throw (Error (message error))
  | success conversations => mret conversations
  end.

(** The effect run when the page is mounted. *)
Definition useEffect : M State unit :=
  catch
    (conversations ← fetchConversations;
     sorted ← mret (sort (λ a b, localeCompare (Conversation.name a)
                                               (Conversation.name b))
                         conversations);
     setConversations (Some sorted))
    (λ error, setErrorMessage (Some (message_of error))).

End page.

Definition ConversationListPage (groot : bool) (s : State) : vnode handler :=
  h "PageWrapper" [] [
    h "div" [("class", str (js "mx-auto p-8 max-w-7xl bg-white rounded-lg border dark:bg-background-dark dark:border-gray-700"))] [
      h "div" [("class", str (js "flex justify-between items-center mb-4"))] [
        h "h5" [("class", str (js "text-xl font-bold leading-none text-gray-900 dark:text-white"))]
          [text (js "Conversations")];
        h "Button" [
          ("id", str (js "create-conversation-button"));
          ("text", str (js "Create"));
          ("action", on (route_to (js "/conversations/create")));
          ("type", str (js "filled"));
          ("class", str (if groot then js "block" else js "hidden"))
        ] []];
      h "LoadingIndicator" [
        ("isLoading",
         flag (bool_decide (conversations s = None)
               && bool_decide (currentError s = None)))] [];
      h "div" [("class", str (js "overflow-x-auto sm:rounded-lg "
                 ++ match conversations s with
                    | None => js "hidden"
                    | Some _ => js "block"
                    end))] [
        h "table" [("class", str (js "w-full text-sm text-left text-gray-500 dark:text-gray-400"))] [
          h "thead" [("class", str (js "text-xs text-gray-700 uppercase dark:text-gray-400 text-left"))] [
            h "tr" [] [
              h "th" [("class", str (js "p-2"))] [text (js "Name")];
              h "th" [("class", str (js "p-2"))] [text (js "Description")];
              (if groot then
                 fragment [
                   h "th" [("class", str (js "p-2"))] [text (js "Tags")];
                   h "th" [("class", str (js "p-2"))] [text (js "Once")]]
               else nothing);
              h "th" [("class", str (js "p-2 text-right"))]
                [text (js "Actions")]]];
          h "tbody" [("class", str (js "p-4"))]
            (match conversations s with
             | Some list =>
                 (λ conversation, ConversationItem conversation groot)
                   <$> list
             | None => [nothing]
             end)]];
      h "Toast" [
        ("id", str (js "error-message"));
        ("type", str (js "error"));
        ("text", opt (currentError s))
      ] []]].

End ConversationList.

(** ** [source/components/radio-button.tsx] *)
Module RadioButtonComponent.
Import VDom.

(** [`${x}`] for an optional string. *)
Definition interpolate (x : option jsstring) : jsstring :=
  default (js "undefined") x.

Definition RadioButton {H} (id : jsstring) (text : option jsstring)
    (selected : bool) (action : H) (class : option jsstring) : vnode H :=
  h "div" [("onClick", on action)] [
    h "input" [
      ("id", str id);
      ("name", str id);
      ("checked", flag selected);
      ("type", str (js "radio"));
      ("class", str (js "w-3 h-3 dark:border-background-dark bg-surface dark:bg-surface-dark text-on-surface dark:text-on-surface-dark focus:outline-none focus:ring-primary dark:focus:ring-primary-dark focus:border-primary dark:focus:border-primary-dark focus:z-10"))
    ] [];
    h "label" [
      ("class", str (js "ml-2 text-md font-normal " ++ interpolate class));
      ("dangerouslySetInnerHTML", inner_html text)
    ] []].

End RadioButtonComponent.

(** ** [source/pages/conversations/take.tsx] *)
Module Take.
Import Api Http Runtime VDom RadioButtonComponent.

Record State := {
  currentError : option jsstring;
  conversation : option Conversation.t;
  currentQuestion : option Question.t;
  selectedOption : option Option.t;
}.

Definition initialState : State :=
  {| currentError := None; conversation := None; currentQuestion := None;
     selectedOption := None |}.

Definition setErrorMessage (message : option jsstring) : M State unit :=
  modify (λ s, {| currentError := message; conversation := conversation s;
                  currentQuestion := currentQuestion s;
                  selectedOption := selectedOption s |}).

Definition setConversation (c : option Conversation.t) : M State unit :=
  modify (λ s, {| currentError := currentError s; conversation := c;
                  currentQuestion := currentQuestion s;
                  selectedOption := selectedOption s |}).

Definition setCurrentQuestion (q : option Question.t) : M State unit :=
  modify (λ s, {| currentError := currentError s;
                  conversation := conversation s; currentQuestion := q;
                  selectedOption := selectedOption s |}).

Definition setSelectedOption (o : option Option.t) : M State unit :=
  modify (λ s, {| currentError := currentError s;
                  conversation := conversation s;
                  currentQuestion := currentQuestion s;
                  selectedOption := o |}).

(** [`${n}`] for an integral number. *)
Definition number_toString (n : Z) : jsstring :=
  js (DecimalString.NilZero.string_of_int (Z.to_int n)).

(** What the controls of the page do: the [Next] button answers, an
    option's radio button (and the focus of its text input) selects the
    option, and typing into the text input of the [index]-th option
    passes the text typed. *)
Inductive handler :=
| answer
| update (option : Option.t)
| type_into (index : nat) (option : Option.t).

Section page.
Context (errors : error_table) (backend : server)
        (renderMarkdown : jsstring → jsstring)
        (conversationId : jsstring).

(** [OptionItem].  For a ['select'] option the radio button is given the
    rendered markdown as children and no [text]; [RadioButton] renders its
    [text] only. *)
Definition OptionItem (index : nat) (option : Option.t) (selected : bool)
    : vnode handler :=
  h "div" [("class", str (js "col-span-6 my-1 p-3 rounded-lg border dark:bg-background-dark dark:border-gray-700 text-sm"))] [
    match Option.type option with
    | Option.select =>
        RadioButton (js "option-" ++ number_toString (Option.position option))
          None selected (update option)
          (Some (js "leading-none text-md text-gray-800 dark:text-gray-300 font-bold"))
    | Option.input => nothing
    end;
    match Option.type option with
    | Option.input =>
        fragment [
          RadioButton (js "option-" ++ number_toString (Option.position option))
            (Some (Option.text option)) selected (update option)
            (Some (js "leading-none text-gray-800 dark:text-gray-400"));
          h "ExpandableTextInput" [
            ("id", str (js "option-" ++ number_toString (Option.position option)));
            ("type", str (js "text"));
            ("update", on (type_into index option));
            ("focus", on (update option))
          ] []]
    | Option.select => nothing
    end].

(** [fetchConversation()] up to its [await]: the call is issued, and the
    promise it returns settles with the conversation or is rejected. *)
Definition fetchConversation : M State (outcome Conversation.t) :=
  response ← fetch backend conversation_payload
    {| url := js "/conversations/" ++ conversationId; method := get;
       json := None |};
  mret match response with
       | failure error => thrown (Error (message error))
       | success conversation => returned conversation
       end.

Definition fetchQuestions : M State (outcome (list Question.t)) :=
  response ← fetch backend questions_payload
    {| url := js "/conversations/" ++ conversationId ++ js "/questions";
       method := get; json := None |};
  mret match response with
       | failure error => thrown (Error (message error))
       | success questions => returned questions
       end.

(** The continuation of a settled promise. *)
Definition settled {A} (p : outcome A) : M State A :=
  match p with
  | returned a => mret a
  | thrown e => throw e
  end.

(** The effect run when the page is mounted.  Both calls are issued at
    once; [conversation_first] tells which of the two answers the
    browser delivers first. *)
Definition useEffect (conversation_first : bool) : M State unit :=
  conversationPromise ← fetchConversation;
  questionsPromise ← fetchQuestions;
  let conversationChain : M State unit :=
    catch (conversation ← settled conversationPromise;
           setConversation (Some conversation))
          (λ error, setErrorMessage (Some (message_of error))) in
  let questionsChain : M State unit :=
    catch (questions ← settled questionsPromise;
           (* Find the first question and render it. *)
           setCurrentQuestion (List.find Question.first questions))
          (λ error, setErrorMessage (Some (message_of error))) in
  if conversation_first
  then conversationChain ;; questionsChain
  else questionsChain ;; conversationChain.

(** [answerQuestion], run from a render of the state [s]. *)
Definition answerQuestion (s : State) : M State unit :=
  setErrorMessage None ;;
  match selectedOption s with
  | None => setErrorMessage (errors !! js "option-was-not-selected")
  | Some selectedOption =>
      setCurrentQuestion None ;;
      setSelectedOption None ;;
      conversation ← non_null (conversation s) (js "id");
      currentQuestion ← non_null (currentQuestion s) (js "id");
      input ← match Option.type selectedOption with
              | Option.select => mret None
              | Option.input =>
                  attribute ← non_null (Option.attribute selectedOption)
                                (js "value");
                  mret (Some (Attribute.value attribute))
              end;
      response ← fetch backend next_payload
        {| url := js "/conversations/" ++ Conversation.id conversation
                  ++ js "/questions/" ++ Question.id currentQuestion
                  ++ js "/answer";
           method := put;
           json := Some (Http.answer (Option.position selectedOption)
                                     input) |};
      match response with
      | failure error => setErrorMessage (Some (message error))
      | success (Some next) => setCurrentQuestion (Some next)
      | success None => route (js "/conversations") false
      end
  end.

(** [if (option.attribute) option.attribute.value = value] *)
Definition with_value (option : Option.t) (value : jsstring) : Option.t :=
  match Option.attribute option with
  | Some _ =>
      {| Option.position := Option.position option;
         Option.type := Option.type option;
         Option.text := Option.text option;
         Option.attribute := Some {| Attribute.value := value |} |}
  | None => option
  end.

(** What a handler does when it fires from a render of [s]; [value] is
    the text of the input for [type_into].  The option object that
    [type_into] mutates is the one the current question holds at
    [index], so the write shows there as well as in the selection. *)
Definition fire (h : handler) (value : jsstring) (s : State)
    : M State unit :=
  match h with
  | answer => answerQuestion s
  | update option => setSelectedOption (Some option)
  | type_into index option =>
      let option' := with_value option value in
      setCurrentQuestion
        ((λ q, {| Question.id := Question.id q;
                  Question.text := Question.text q;
                  Question.first := Question.first q;
                  Question.last := Question.last q;
                  Question.options :=
                    <[index := option']> (Question.options q) |})
           <$> currentQuestion s) ;;
      setSelectedOption (Some option')
  end.

(** The block that shows the current question. *)
Definition questionBlock (s : State) : vnode handler :=
  match currentQuestion s with
  | None => nothing
  | Some currentQuestion =>
      fragment [
        h "div" [("class", str (js "grid grid-cols-6 gap-1"))] (
          [h "div" [("class", str (js "col-span-6 pb-4 pt-2"))] [
             h "div" [
               ("class", str (js "text-md text-gray-900 dark:text-white unreset"));
               ("dangerouslySetInnerHTML",
                inner_html (Some (renderMarkdown
                                    (Question.text currentQuestion))))
             ] []];
           h "hr" [("class", str (js "col-span-6 mb-3 dark:border-gray-700"))] []]
          ++ imap (λ index option,
               OptionItem index option
                 (bool_decide (Some (Option.position option)
                               = Option.position <$> selectedOption s)))
               (Question.options currentQuestion)
          ++ [h "div" [("class", str (js "block col-span-5"))] [];
              h "Button" [
                ("id", str (js "next-button"));
                ("text", str (if Question.last currentQuestion
                              then js "Finish" else js "Next"));
                ("action", on answer);
                ("type", str (js "filled"));
                ("class", str (js "col-span-1 mt-4"))
              ] []])]
  end.

Definition TakeConversationPage (s : State) : vnode handler :=
  h "PageWrapper" [] [
    h "div" [("class", str (js "mx-auto p-8 max-w-4xl bg-white rounded-lg border dark:bg-background-dark dark:border-gray-700"))] [
      h "div" [("class", str (js "flex justify-between items-center mb-4"))] [
        h "h5" [("class", str (js "text-xl font-bold leading-none text-gray-900 dark:text-white"))]
          [text (default (js "Conversation")
                   (Conversation.name <$> conversation s))]];
      h "LoadingIndicator" [
        ("isLoading", flag (bool_decide (currentQuestion s = None)))] [];
      h "div" [("class", str (js "sm:rounded-lg "
                 ++ match currentQuestion s with
                    | None => js "hidden"
                    | Some _ => js "block"
                    end))]
        [questionBlock s];
      h "Toast" [
        ("id", str (js "error-message"));
        ("type", str (js "error"));
        ("text", opt (currentError s))
      ] []]].

End page.
End Take.

(** ** What the conversation list shows

    Readings of the rendered page: the rows of the table, the cells of a
    row, the buttons with their label, handler and visibility, and the
    page without its conditional blocks. *)
Module ListView.
Import VDom ConversationList.

Definition rows (page : vnode handler) : list (vnode handler) :=
  select_type "tbody" page ≫= children_of.

Definition cells (row : vnode handler) : list (vnode handler) :=
  children_of row.


(** A button: its label, what it does, and whether it is on screen. *)
Record control := {
  label : option jsstring;
  does : option handler;
  shown : bool;
}.

Definition control_of (button : vnode handler) : control :=
  {| label := match get_prop "text" (props_of button) with
              | Some (str t) => Some t
              | _ => None
              end;
     does := action_of button;
     shown := negb (is_hidden (props_of button)) |}.

Definition controls (id : jsstring) (v : vnode handler) : list control :=
  control_of <$> by_id id v.

(** The name, the description and the Take button of a row. *)
Definition row_view (row : vnode handler)
    : option jsstring * option jsstring * list control :=
  (text_content <$> cells row !! 0,
   text_content <$> cells row !! 1,
   controls (js "take-conversation-button") row).

(** What the row of a conversation is to show, whoever looks at it. *)
Definition row_of (c : Api.Conversation.t)
    : option jsstring * option jsstring * list control :=
  (Some (Api.Conversation.name c), Some (Api.Conversation.description c),
   [{| label := Some (js "Take");
       does := Some (route_to (js "/conversations/"
                               ++ Api.Conversation.id c));
       shown := true |}]).





End ListView.

(** ** Requests and conditions that the statements below name *)
Module Calls.
Import Api Http SignUpForm.

(** The account-creation call of [signUp]. *)
Definition signUpRequest (signUpForm : gmap key jsstring) : request :=
  {| url := js "/auth/signup"; method := post; json := Some (form signUpForm) |}.

(** The group-join call of [signUp]. *)
Definition joinRequest (code : jsstring) : request :=
  {| url := js "/groups/join"; method := put; json := Some (join code) |}.

(** The three checks of [signUp] on a form, missing fields read as [''] . *)
Definition name_ok (signUpForm : gmap key jsstring) : bool :=
  RegExp.test SignUp.validation.name (default [] (signUpForm !! name)).
Definition email_ok (signUpForm : gmap key jsstring) : bool :=
  RegExp.test SignUp.validation.email (default [] (signUpForm !! email)).
Definition password_ok (signUpForm : gmap key jsstring) : bool :=
  RegExp.test SignUp.validation.password (default [] (signUpForm !! password)).

(** The calls of the conversation pages. *)
Definition conversationRequest (conversationId : jsstring) : request :=
  {| url := js "/conversations/" ++ conversationId; method := get;
     json := None |}.

Definition questionsRequest (conversationId : jsstring) : request :=
  {| url := js "/conversations/" ++ conversationId ++ js "/questions";
     method := get; json := None |}.

Definition conversationsRequest : request :=
  {| url := js "/conversations"; method := get; json := None |}.

Definition answerRequest (conversation : Conversation.t)
    (question : Question.t) (position : Z) (input : option jsstring)
    : request :=
  {| url := js "/conversations/" ++ Conversation.id conversation
            ++ js "/questions/" ++ Question.id question ++ js "/answer";
     method := put;
     json := Some (answer position input) |}.

End Calls.

(** ** Sample data

    Concrete tables, forms, records and backends on which the pages are
    run.  The texts of the error table are placeholders: the statements
    below hold for every table. *)
Module Samples.
Import Api Http SignUpForm.

Definition errors : gmap jsstring jsstring :=
  list_to_map [
    (js "incomplete-input", js "Please fill in all the fields.");
    (js "invalid-email-address", js "Please enter a valid email address.");
    (js "weak-password", js "Please choose a longer password.");
    (js "user-already-exists", js "This email address is already in use.");
    (js "option-was-not-selected", js "Please select an option.")].

(** A form that passes the three checks. *)
Definition ada : gmap key jsstring :=
  <[name := js "Ada Lovelace"]>
    (<[email := js "ada@example.org"]>
      (<[password := js "analytical"]> ∅)).

(** The same form with a group code. *)
Definition ada_with_code : gmap key jsstring := <[code := js "engines"]> ada.

(** A form whose password is seven code units long, the last one a line
    feed. *)
Definition ada_line_feed : gmap key jsstring :=
  <[password := js "abcdef" ++ [0x0A%N]]> ada.

(** A form whose password is seven code units long, the last one the line
    separator U+2028, which a single-line text input keeps. *)
Definition ada_line_separator : gmap key jsstring :=
  <[password := js "abcdef" ++ [0x2028%N]]> ada.

Definition signUpState (form : gmap key jsstring) : SignUp.State :=
  {| SignUp.signUpForm := form; SignUp.currentError := None;
     SignUp.isLoading := false |}.

(** A backend that answers every call with the same error. *)
Definition failing (e : error) : server := λ p _ _, failure e.

Definition unreachable : error :=
  {| Http.code := js "network-error"; message := js "The server is unreachable." |}.

Definition short_password : error :=
  {| Http.code := js "improper-payload";
     message := js "The password is too short." |}.

Definition malformed_email : error :=
  {| Http.code := js "improper-payload";
     message := js "The email address is malformed." |}.

Definition unknown_code : error :=
  {| Http.code := js "entity-not-found"; message := js "No group has that code." |}.

(** A conversation of two questions; the server lists the closing
    question before the opening one. *)
Definition yes : Option.t :=
  {| Option.position := 1; Option.type := Option.select;
     Option.text := js "Yes"; Option.attribute := None |}.

Definition other : Option.t :=
  {| Option.position := 2; Option.type := Option.input;
     Option.text := js "Other";
     Option.attribute := Some {| Attribute.value := js "" |} |}.

(** An option of type ['input'] that carries no attribute. *)
Definition bare : Option.t :=
  {| Option.position := 3; Option.type := Option.input;
     Option.text := js "Anything else"; Option.attribute := None |}.

Definition opening : Question.t :=
  {| Question.id := js "q1"; Question.text := js "Did you meet this week?";
     Question.first := true; Question.last := false;
     Question.options := [yes; other] |}.

Definition closing : Question.t :=
  {| Question.id := js "q2"; Question.text := js "Any remarks?";
     Question.first := false; Question.last := true;
     Question.options := [other] |}.

Definition checkin : Conversation.t :=
  {| Conversation.id := js "c1"; Conversation.name := js "Weekly check-in";
     Conversation.description := js "How the week went";
     Conversation.tags := [js "weekly"]; Conversation.once := false |}.

Definition onboarding : Conversation.t :=
  {| Conversation.id := js "c2"; Conversation.name := js "Onboarding";
     Conversation.description := js "First steps";
     Conversation.tags := []; Conversation.once := true |}.

Definition goals : Conversation.t :=
  {| Conversation.id := js "c3"; Conversation.name := js "Goals";
     Conversation.description := js "What to aim for";
     Conversation.tags := [js "planning"; js "quarterly"];
     Conversation.once := false |}.

(** A backend on which every call succeeds. *)
Definition healthy : server := λ p _ _,
  match p with
  | conversation_payload => success checkin
  | questions_payload => success [closing; opening]
  | conversations_payload => success [checkin; onboarding; goals]
  | next_payload => success (Some closing)
  | session_payload => success (JObject [], JObject [])
  | unknown_payload => success tt
  end.

(** The same backend, except that it has no conversation to show:
    [GET /conversations/:id] fails while the questions are served. *)
Definition conversation_down : server := λ p n req,
  match p with
  | conversation_payload =>
      failure {| Http.code := js "entity-not-found";
                 message := js "The conversation does not exist." |}
  | _ => healthy p n req
  end.

(** A backend that creates accounts and refuses every group code. *)
Definition code_refused : server := λ p n req,
  match p with
  | unknown_payload => failure unknown_code
  | _ => healthy p n req
  end.

(** The markdown renderer is the identity on these texts. *)
Definition plain (text : jsstring) : jsstring := text.

(** Code-unit order: a total and transitive comparison of strings. *)
Fixpoint compare_units (a b : jsstring) : Z :=
  match a, b with
  | [], [] => 0
  | [], _ :: _ => -1
  | _ :: _, [] => 1
  | x :: a', y :: b' =>
      if (x <? y)%N then -1
      else if (y <? x)%N then 1
      else compare_units a' b'
  end.

End Samples.

(** ** Running the programs symbolically *)
Ltac run_M :=
  cbv beta iota zeta delta
    [mbind mret Runtime.M_bind Runtime.M_ret Runtime.bind Runtime.ret
     Runtime.throw Runtime.catch Runtime.non_null Runtime.modify
     Runtime.message_of
     Runtime.fetch Runtime.route Runtime.setTimeout Runtime.storage_set
     Runtime.run_task
     Runtime.boot Runtime.state Runtime.requests Runtime.routes
     Runtime.timeouts Runtime.stored
     SignUp.setLoading SignUp.setErrorMessage SignUp.dispatch
     SignUp.signUpForm SignUp.currentError SignUp.isLoading
     ConversationList.setErrorMessage ConversationList.setConversations
     ConversationList.currentError ConversationList.conversations
     Take.setErrorMessage Take.setConversation Take.setCurrentQuestion
     Take.setSelectedOption Take.settled
     Take.currentError Take.conversation Take.currentQuestion
     Take.selectedOption
     fst snd negb];
  cbn [app length].


(** Comparisons of string literals and the [hidden] test on a literal
    class are settled by computation. *)
Ltac eval_literals :=
  repeat match goal with
         | |- context [eqb_js (js ?a) (js ?b)] =>
             let v := eval vm_compute in (eqb_js (js a) (js b)) in
             change (eqb_js (js a) (js b)) with v
         | |- context [existsb (eqb_js (js ?a)) (VDom.words [] ?c)] =>
             let v := eval vm_compute in
                        (existsb (eqb_js (js a)) (VDom.words [] c)) in
             lazymatch v with
             | true => idtac
             | false => idtac
             end;
             change (existsb (eqb_js (js a)) (VDom.words [] c)) with v
         end.

(** ** [source/pages/signup.tsx]: what the page renders *)
Module SignUpRender.
Import Api Http Runtime VDom SignUpForm.

(** What the controls of the page do: a text input passes the text typed
    to the reducer for its field, the button signs up. *)
Inductive handler :=
| type_field (field : key)
| submit.

(** What a handler does when it fires from a render of [s]; [value] is the
    text of the input for [type_field]. *)
Definition fire (errors : error_table) (backend : server)
    (search : search_params) (h : handler) (value : jsstring)
    (s : SignUp.State) : M SignUp.State unit :=
  match h with
  | type_field field =>
      SignUp.dispatch {| type := js "update-field"; field := field;
                         payload := Some value |}
  | submit => SignUp.signUp errors backend search (SignUp.signUpForm s)
  end.

Definition page (s : SignUp.State) : vnode handler :=
  h "PageWrapper" [] [
    h "div" [("class", str (js "flex items-center justify-center py-12"))] [
      h "div" [("class", str (js "max-w-md w-full space-y-8"))] [
        h "AuthHeader" [("mode", str (js "signup"))] [];
        h "div" [("class", str (js "shadow overflow-hidden rounded-lg dark:bg-background-dark"))] [
          h "div" [("class", str (js "m-2 px-5 py-5"))] [
            h "form" [("class", str (js "space-y-6"))] [
              h "TextInput" [
                ("id", str (js "name-input"));
                ("label", str (js "Name"));
                ("type", str (js "name"));
                ("placeholder", str (js "Full Name"));
                ("value", opt (SignUp.signUpForm s !! name));
                ("required", flag true);
                ("update", on (type_field name))
              ] [];
              h "TextInput" [
                ("id", str (js "email-input"));
                ("label", str (js "Email address"));
                ("type", str (js "email"));
                ("placeholder", str (js "name@email.com"));
                ("value", opt (SignUp.signUpForm s !! email));
                ("required", flag true);
                ("update", on (type_field email))
              ] [];
              h "TextInput" [
                ("id", str (js "password-input"));
                ("label", str (js "Password"));
                ("type", str (js "password"));
                ("placeholder", str (js "correcthorsebatterystaple"));
                ("value", opt (SignUp.signUpForm s !! password));
                ("required", flag true);
                ("update", on (type_field password))
              ] [];
              h "TextInput" [
                ("id", str (js "code-input"));
                ("label", str (js "Code"));
                ("type", str (js "code"));
                ("placeholder", str (js "code-to-join-a-group"));
                ("value", opt (SignUp.signUpForm s !! code));
                ("required", flag false);
                ("update", on (type_field code))
              ] [];
              h "Button" [
                ("id", str (js "signup-button"));
                ("text", str (js "Sign Up"));
                ("action", on submit);
                ("type", str (js "filled"));
                ("class", str (if SignUp.isLoading s
                               then js "hidden" else js "w-full"))
              ] [];
              h "LoadingIndicator" [
                ("isLoading", flag (SignUp.isLoading s))] []]]];
        h "Toast" [
          ("id", str (js "error-message"));
          ("type", str (js "error"));
          ("text", opt (SignUp.currentError s))
        ] []]]].

(** A session on the page: the handlers fired one after the other, each
    from a render of the state the one before has left. *)
Definition play (errors : error_table) (backend : server)
    (search : search_params) (events : list (handler * jsstring))
    (w : world SignUp.State) : world SignUp.State :=
  foldl (λ w event,
           (fire errors backend search event.1 event.2 (state w) w).2)
        w events.

End SignUpRender.

(** ** [source/pages/conversations/take.tsx]: sessions *)
Module TakeSession.
Import Api Http Runtime.

(** A session on the take page: the handlers fired one after the other,
    each from a render of the state the one before has left. *)
Definition play (errors : error_table) (backend : server)
    (events : list (Take.handler * jsstring)) (w : world Take.State)
    : world Take.State :=
  foldl (λ w event,
           (Take.fire errors backend event.1 event.2 (state w) w).2)
        w events.

End TakeSession.

(** ** Readings of a rendered page *)
Module PageView.
Import VDom.

(** The prop [key] of every node of type [type], in document order. *)
Definition props_at {H} (type key : string) (v : vnode H)
    : list (option (prop H)) :=
  get_prop key ∘ props_of <$> select_type type v.

(** The [isLoading] flag handed to the loading indicator. *)
Definition loading_indicator {H} (v : vnode H) : list (option (prop H)) :=
  props_at "LoadingIndicator" "isLoading" v.

(** The [text] handed to the error toast. *)
Definition toast {H} (v : vnode H) : list (option (prop H)) :=
  props_at "Toast" "text" v.

(** The headings of the page. *)
Definition headings {H} (v : vnode H) : list jsstring :=
  text_content <$> select_type "h5" v.



(** The [value] shown by every text input. *)
Definition input_values {H} (v : vnode H) : list (option (prop H)) :=
  props_at "TextInput" "value" v.

(** Is the one node with the given [id] on screen? *)
Definition on_screen {H} (id : jsstring) (v : vnode H) : list bool :=
  (λ n, negb (is_hidden (props_of n))) <$> by_id id v.

End PageView.

(** ** More sample data *)
Module MoreSamples.
Import Api Http.

(** A second conversation named 'Goals'. *)
Definition goals_again : Conversation.t :=
  {| Conversation.id := js "c4"; Conversation.name := js "Goals";
     Conversation.description := js "What was reached";
     Conversation.tags := []; Conversation.once := true |}.

(** A backend that lists two conversations of the same name around a
    third one. *)
Definition twins : server := λ p,
  match p as p' return nat → request → response (data_of p') with
  | conversations_payload =>
      λ _ _, success [Samples.goals; Samples.checkin; goals_again]
  | p' => Samples.healthy p'
  end.

(** A backend that lists its conversations in the order of their names. *)
Definition in_order : server := λ p,
  match p as p' return nat → request → response (data_of p') with
  | conversations_payload =>
      λ _ _, success [Samples.goals; goals_again; Samples.onboarding;
                      Samples.checkin]
  | p' => Samples.healthy p'
  end.

End MoreSamples.

(** * Properties *)

(** ** The regular-expression matcher *)
Section regexp_facts.
Import RegExp.

Lemma repeat_ends_spec cls lo hi i s j t :
  (j, t) ∈ repeat_ends cls lo hi i s ↔
  ∃ pre, s = pre ++ t ∧ j = i + length pre ∧ forallb cls pre = true
         ∧ lo ≤ length pre ∧ (∀ h, hi = Some h → length pre ≤ h).
Proof.
  revert lo hi i. induction s as [|c s IH]; intros lo hi i; simpl.
  - destruct (Nat.eqb_spec lo 0) as [->|Hlo].
    + rewrite list_elem_of_singleton. split.
      * intros [= -> ->]. exists []. simpl. repeat split; auto with lia.
      * intros (pre & Hs & -> & _). symmetry in Hs.
        apply app_eq_nil in Hs as [-> ->]. simpl. f_equal. lia.
    + split; [by intros ?%elem_of_nil|].
      intros (pre & Hs & _ & _ & Hlen & _). symmetry in Hs.
      apply app_eq_nil in Hs as [-> ->]. simpl in Hlen. lia.
  - rewrite elem_of_app. split.
    + intros [Hin|Hin].
      * destruct (cls c) eqn:Hc; simpl in Hin; [|by apply elem_of_nil in Hin].
        destruct (may_take hi) eqn:Hhi; [|by apply elem_of_nil in Hin].
        apply IH in Hin as (pre & -> & -> & Hall & Hlo & Hhi').
        exists (c :: pre). simpl. rewrite Hc, Hall.
        repeat split; auto with lia.
        intros h ->. simpl in *. specialize (Hhi' (pred h) eq_refl).
        destruct h; simpl in *; [done|lia].
      * destruct (Nat.eqb_spec lo 0) as [->|Hlo];
          [|by apply elem_of_nil in Hin].
        apply list_elem_of_singleton in Hin as [= -> ->].
        exists []. simpl. repeat split; auto with lia.
    + intros (pre & Hs & -> & Hall & Hlo & Hhi).
      destruct pre as [|c' pre]; simpl in *.
      * right. subst t. replace lo with 0 by lia. simpl.
        apply list_elem_of_singleton. f_equal. lia.
      * injection Hs as <- ->. left.
        apply andb_prop in Hall as [Hc Hall]. rewrite Hc. simpl.
        assert (may_take hi = true) as ->.
        { destruct hi as [h|]; [|done]. specialize (Hhi h eq_refl).
          simpl. destruct h; [lia|done]. }
        apply IH. exists pre. repeat split; auto with lia.
        intros h Hh. destruct hi as [h'|]; simplify_eq/=.
        specialize (Hhi h' eq_refl). lia.
Qed.

Lemma bind_nil_iff {A B} (f : A → list B) (l : list A) :
  l ≫= f = [] ↔ ∀ x, x ∈ l → f x = [].
Proof.
  induction l as [|a l IH]; simpl.
  - split; [intros _ x Hx; by apply elem_of_nil in Hx|done].
  - rewrite app_nil, IH. split.
    + intros [Ha Hl] x [->|Hx]%elem_of_cons; auto.
    + intros Hall. split; [apply Hall; left|].
      intros x Hx. apply Hall. by right.
Qed.

Lemma accepts_concat r1 r2 st :
  accepts (Concat r1 r2) st ↔ ∃ st', st' ∈ run r1 st ∧ accepts r2 st'.
Proof.
  unfold accepts. simpl. rewrite bind_nil_iff. split.
  - intros Hne. induction (run r1 st) as [|x l IH].
    + exfalso. apply Hne. intros x Hx. by apply elem_of_nil in Hx.
    + destruct (run r2 x) eqn:E.
      * destruct IH as (st' & Hin & Hst').
        { intros Hall. apply Hne. intros y [->|Hy]%elem_of_cons; auto. }
        exists st'. split; [by right|done].
      * exists x. split; [left|]. by rewrite E.
  - intros (st' & Hin & Hne) Hall. by apply Hne, Hall.
Qed.

Lemma accepts_end st : accepts AssertEnd st ↔ st.2 = [].
Proof. unfold accepts. simpl. destruct (st.2); split; done. Qed.

Lemma accepts_neg r st : accepts (NegLookahead r) st ↔ ¬ accepts r st.
Proof.
  unfold accepts. simpl. destruct (run r st); split; try done.
  - intros _ H. by apply H.
  - intros H _. by apply H.
Qed.

(** A quantified class followed by [$]: the class must cover all the
    rest of the input. *)
Lemma accepts_repeat_end cls lo hi i s :
  accepts (Concat (Repeat cls lo hi) AssertEnd) (i, s) ↔
  forallb cls s = true ∧ lo ≤ length s ∧ (∀ h, hi = Some h → length s ≤ h).
Proof.
  rewrite accepts_concat. split.
  - intros ([j t] & Hin & Hend). apply accepts_end in Hend. simpl in *.
    subst t. apply repeat_ends_spec in Hin as (pre & Hs & _ & ? & ? & ?).
    rewrite app_nil_r in Hs. by subst pre.
  - intros (Hall & Hlo & Hhi). exists (i + length s, []). split.
    + apply repeat_ends_spec. exists s. rewrite app_nil_r. simpl. repeat split; auto.
    + by apply accepts_end.
Qed.

(** With a leading [^] the search for a match stops at index 0. *)
Lemma test_anchored r s :
  test (Concat AssertStart r) s = true ↔ accepts r (0, s).
Proof.
  unfold test. rewrite existsb_exists. split.
  - intros (k & _ & Hk). unfold matches_at in Hk. simpl in Hk.
    destruct k as [|k]; simpl in Hk; [|done].
    rewrite app_nil_r, drop_0 in Hk. unfold accepts.
    intros Hnil. by rewrite Hnil in Hk.
  - intros Hacc. exists 0. split; [simpl; auto|].
    unfold matches_at. simpl. rewrite app_nil_r, drop_0.
    unfold accepts in Hacc. by destruct (run r _).
Qed.
End regexp_facts.

Section validation_facts.
Import RegExp SignUp.

Lemma accepts_elem r st : accepts r st ↔ ∃ st', st' ∈ run r st.
Proof.
  unfold accepts. destruct (run r st) as [|x l]; split; try done.
  - intros [x Hx]. by apply elem_of_nil in Hx.
  - intros _. exists x. left.
Qed.

Lemma run_neg_elem r st st' :
  st' ∈ run (NegLookahead r) st ↔ st' = st ∧ ¬ accepts r st.
Proof.
  unfold accepts. simpl. destruct (run r st) as [|x l].
  - rewrite list_elem_of_singleton.
    split; [intros ->; split; [done|intros H; by apply H]|by intros [-> _]].
  - split; [by intros ?%elem_of_nil|]. intros [_ H]. by destruct H.
Qed.

Lemma run_repeat cls lo hi i s :
  run (Repeat cls lo hi) (i, s) = repeat_ends cls lo hi i s.
Proof. reflexivity. Qed.

(** [/^.{6,256}$/]: 6 to 256 code units, none a line terminator. *)
Lemma validation_password_spec s :
  test validation.password s = true ↔
  6 ≤ length s ≤ 256 ∧ forallb dot s = true.
Proof.
  unfold validation.password. rewrite test_anchored, accepts_repeat_end.
  split.
  - intros (Hall & Hlo & Hhi). specialize (Hhi 256 eq_refl). done.
  - intros ([Hlo Hhi] & Hall). repeat split; [done..|].
    by intros h [= <-].
Qed.

(** [/^\S+@\S+$/]: no white space at all, and an [@] that is neither
    the first nor the last code unit. *)
Lemma validation_email_spec s :
  test validation.email s = true ↔
  ∃ u v, s = u ++ 0x40%N :: v ∧ u ≠ [] ∧ v ≠ []
         ∧ forallb non_space u = true ∧ forallb non_space v = true.
Proof.
  unfold validation.email. rewrite test_anchored, accepts_concat. split.
  - intros ([i t] & Hu & Hrest). rewrite run_repeat in Hu.
    apply repeat_ends_spec in Hu as (u & -> & -> & Hu & Hlen & _).
    apply accepts_concat in Hrest as ([j t'] & Hat & Hv).
    rewrite run_repeat in Hat.
    apply repeat_ends_spec in Hat as (a & -> & -> & Ha & Hlo & Hhi).
    specialize (Hhi 1 eq_refl).
    destruct a as [|c [|? ?]]; simpl in *; try lia.
    apply accepts_repeat_end in Hv as (Hv & Hlv & _).
    rewrite andb_true_r in Ha. apply N.eqb_eq in Ha as ->.
    exists u, t'. repeat split; try done.
    + intros ->. simpl in Hlen. lia.
    + intros ->. simpl in Hlv. lia.
  - intros (u & v & -> & Hu & Hv & Hau & Hav).
    exists (length u, 0x40%N :: v). split.
    + rewrite run_repeat. apply repeat_ends_spec. exists u.
      repeat split; try done.
      destruct u; [done|simpl; lia].
    + apply accepts_concat. exists (S (length u), v). split.
      * rewrite run_repeat. apply repeat_ends_spec. exists [0x40%N]. simpl.
        repeat split; try done; [lia|]. by intros h [= <-].
      * apply accepts_repeat_end. repeat split; try done.
        destruct v; [done|simpl; lia].
Qed.

(** [/^(?!\s*$).+/]: not only white space, and the first code unit is
    not a line terminator. *)
Lemma validation_name_spec s :
  test validation.name s = true ↔
  forallb space s = false ∧ ∃ c s', s = c :: s' ∧ dot c = true.
Proof.
  unfold validation.name. rewrite test_anchored, accepts_concat. split.
  - intros (st' & [-> Hneg]%run_neg_elem & Hdot). split.
    + destruct (forallb space s) eqn:E; [|done]. destruct Hneg.
      apply accepts_repeat_end. repeat split; [done|lia|done].
    + apply accepts_elem in Hdot as ([j t] & Hin). rewrite run_repeat in Hin.
      apply repeat_ends_spec in Hin as (pre & -> & _ & Hall & Hlen & _).
      destruct pre as [|c pre]; simpl in *; [lia|].
      apply andb_prop in Hall as [Hc _]. by exists c, (pre ++ t).
  - intros (Hblank & c & s' & -> & Hc). exists (0, c :: s'). split.
    + apply run_neg_elem. split; [done|].
      intros (Hall & _)%accepts_repeat_end. congruence.
    + apply accepts_elem. exists (1, s'). rewrite run_repeat.
      apply repeat_ends_spec.
      exists [c]. simpl. rewrite Hc. repeat split; done.
Qed.
End validation_facts.

(** ** The sign-up page *)
Section signup_facts.
Import Api Http Runtime SignUpForm SignUp RegExp Calls.

(** C10.  The reducer of the sign-up form: an ['update-field'] action with
    a payload sets the named field to the payload and leaves every other
    field as it was; an action without payload, or of another type, returns
    the state unchanged. *)
Theorem reducer_frame (form : gmap key jsstring) (a : action) :
  (∀ text, type a = js "update-field" → payload a = Some text →
     reducer form a !! field a = Some text
     ∧ ∀ k, k ≠ field a → reducer form a !! k = form !! k)
  ∧ (payload a = None ∨ type a ≠ js "update-field" → reducer form a = form).
Proof.
  unfold reducer. split.
  - intros text Htype ->. rewrite bool_decide_eq_true_2 by done. split.
    + apply lookup_insert_eq.
    + intros k Hk. by apply lookup_insert_ne.
  - intros [-> | Hne].
    + by destruct (bool_decide _).
    + by rewrite bool_decide_eq_false_2.
Qed.

Lemma reducer_frame_witness :
  reducer Samples.ada
    {| type := js "update-field"; field := code;
       payload := Some (js "engines") |} !! code = Some (js "engines")
  ∧ reducer Samples.ada
      {| type := js "update-field"; field := code;
         payload := Some (js "engines") |} !! email
    = Some (js "ada@example.org")
  ∧ reducer Samples.ada
      {| type := js "update-field"; field := code; payload := None |}
    = Samples.ada.
Proof.
  pose proof (reducer_frame Samples.ada
    {| type := js "update-field"; field := code;
       payload := Some (js "engines") |}) as [Hset _].
  destruct (Hset (js "engines") eq_refl eq_refl) as [Hfield Hframe].
  pose proof (reducer_frame Samples.ada
    {| type := js "update-field"; field := code; payload := None |})
    as [_ Hsame].
  split; [exact Hfield|split].
  - rewrite (Hframe email); [reflexivity|discriminate].
  - apply Hsame. left. reflexivity.
Defined.

(** The first failing check of [signUp] sets its message and ends the
    operation before any call. *)
Lemma signUp_rejects errors backend search (s : State) :
  let form := signUpForm s in
  let w' := (signUp errors backend search form (boot s)).2 in
  (name_ok form = false →
   requests w' = []
   ∧ currentError (state w') = errors !! js "incomplete-input")
  ∧ (name_ok form = true → email_ok form = false →
   requests w' = []
   ∧ currentError (state w') = errors !! js "invalid-email-address")
  ∧ (name_ok form = true → email_ok form = true → password_ok form = false →
   requests w' = []
   ∧ currentError (state w') = errors !! js "weak-password").
Proof.
  intros form w'. subst w'. unfold name_ok, email_ok, password_ok, signUp.
  repeat split; intros;
    repeat match goal with
           | H : RegExp.test _ _ = _ |- _ => rewrite H; clear H
           end; done.
Qed.

(** A form that passes the three checks is sent to [/auth/signup]. *)
Lemma signUp_calls errors backend search (s : State) :
  let form := signUpForm s in
  name_ok form = true → email_ok form = true → password_ok form = true →
  ∃ rest, requests (signUp errors backend search form (boot s)).2
          = signUpRequest form :: rest.
Proof.
  intros form H1 H2 H3. unfold name_ok, email_ok, password_ok in *.
  unfold signUp. rewrite H1, H2, H3.
  run_M. destruct (backend session_payload 0 _) as [[u t]|e]; run_M.
  - destruct (truthy (form !! code)) as [c|]; run_M.
    + destruct (backend unknown_payload 1 _); run_M; eauto.
    + eauto.
  - repeat case_bool_decide; run_M; eauto.
Qed.

(** C5, as amended.  [signUp] makes the account-creation call exactly when
    the name matches [/^(?!\s*$).+/], the email matches [/^\S+@\S+$/] and the
    password is 6 to 256 code units long with no line terminator among
    them.  The checks run in that order on the fields, a missing field read
    as the empty string, and the first one that fails sets its message
    ('incomplete-input', 'invalid-email-address', 'weak-password') and
    stops before any call. *)
Theorem signUp_validation errors backend search (s : State) :
  let form := signUpForm s in
  let pass := default [] (form !! password) in
  let w' := (signUp errors backend search form (boot s)).2 in
  (signUpRequest form ∈ requests w' ↔
     name_ok form = true ∧ email_ok form = true
     ∧ 6 ≤ length pass ≤ 256
     ∧ ∀ c, c ∈ pass → is_line_terminator c = false)
  ∧ (name_ok form = false →
     requests w' = []
     ∧ currentError (state w') = errors !! js "incomplete-input")
  ∧ (name_ok form = true → email_ok form = false →
     requests w' = []
     ∧ currentError (state w') = errors !! js "invalid-email-address")
  ∧ (name_ok form = true → email_ok form = true →
     ¬ (6 ≤ length pass ≤ 256
        ∧ ∀ c, c ∈ pass → is_line_terminator c = false) →
     requests w' = []
     ∧ currentError (state w') = errors !! js "weak-password").
Proof.
  intros form pass w'.
  assert (password_ok form = true ↔
          6 ≤ length pass ≤ 256
          ∧ ∀ c, c ∈ pass → is_line_terminator c = false) as Hpass.
  { unfold password_ok. fold form pass. rewrite validation_password_spec.
    rewrite forallb_forall. unfold dot.
    setoid_rewrite negb_true_iff. by setoid_rewrite list_elem_of_In. }
  destruct (signUp_rejects errors backend search s)
    as (Hname & Hemail & Hpassword).
  fold form w' in Hname, Hemail, Hpassword.
  split; [|split; [done|split; [done|]]].
  - split.
    + intros Hin.
      destruct (name_ok form) eqn:E1;
        [|destruct (Hname eq_refl) as [Hnil _]; rewrite Hnil in Hin;
          by apply elem_of_nil in Hin].
      destruct (email_ok form) eqn:E2;
        [|destruct (Hemail eq_refl eq_refl) as [Hnil _]; rewrite Hnil in Hin;
          by apply elem_of_nil in Hin].
      destruct (password_ok form) eqn:E3;
        [|destruct (Hpassword eq_refl eq_refl eq_refl) as [Hnil _];
          rewrite Hnil in Hin; by apply elem_of_nil in Hin].
      repeat split; try done; by apply Hpass.
    + intros (H1 & H2 & H3). apply Hpass in H3.
      destruct (signUp_calls errors backend search s H1 H2 H3) as [rest Hr].
      subst w'. fold form in Hr. rewrite Hr. left.
  - intros H1 H2 H3. apply Hpassword; try done.
    destruct (password_ok form) eqn:E3; [|done].
    destruct H3. by apply Hpass.
Qed.

Lemma signUp_validation_witness :
  let s := Samples.signUpState Samples.ada in
  signUpRequest Samples.ada
    ∈ requests (signUp Samples.errors (Samples.failing Samples.unreachable)
                  [] Samples.ada (boot s)).2.
Proof.
  intros s.
  apply (signUp_validation Samples.errors
           (Samples.failing Samples.unreachable) [] s).
  repeat split; [vm_compute; reflexivity..|vm_compute; lia|vm_compute; lia|].
  apply Forall_forall. vm_compute. repeat constructor.
Defined.

(** C5, as stated, fails: a seven-unit password that ends in a line feed,
    or in the line separator U+2028, is between 6 and 256 characters long,
    the name and the email pass, and yet no call is made and the password
    is reported as weak: [.] matches no line terminator. *)
Lemma signUp_validation_counterexample :
  (name_ok Samples.ada_line_feed = true
   ∧ email_ok Samples.ada_line_feed = true
   ∧ 6 ≤ length (default [] (Samples.ada_line_feed !! password)) ≤ 256
   ∧ requests (signUp Samples.errors (Samples.failing Samples.unreachable)
                 [] Samples.ada_line_feed
                 (boot (Samples.signUpState Samples.ada_line_feed))).2 = []
   ∧ currentError
       (state (signUp Samples.errors (Samples.failing Samples.unreachable)
                 [] Samples.ada_line_feed
                 (boot (Samples.signUpState Samples.ada_line_feed))).2)
     = Samples.errors !! js "weak-password")
  ∧ (name_ok Samples.ada_line_separator = true
     ∧ email_ok Samples.ada_line_separator = true
     ∧ 6 ≤ length (default [] (Samples.ada_line_separator !! password)) ≤ 256
     ∧ requests (signUp Samples.errors (Samples.failing Samples.unreachable)
                   [] Samples.ada_line_separator
                   (boot (Samples.signUpState Samples.ada_line_separator))).2
       = []
     ∧ currentError
         (state (signUp Samples.errors (Samples.failing Samples.unreachable)
                   [] Samples.ada_line_separator
                   (boot (Samples.signUpState
                            Samples.ada_line_separator))).2)
       = Samples.errors !! js "weak-password").
Proof.
  repeat split; try (vm_compute; reflexivity); vm_compute; lia.
Qed.
End signup_facts.

Section signup_responses.
Import Api Http Runtime SignUpForm SignUp RegExp Calls.

(** What [signUp] does with an error response to the account-creation
    call: one call, the loading indicator off, no navigation, no timer,
    and the message chosen by the [switch]. *)
Lemma signUp_failure errors backend search (s : State) (e : error) :
  let form := signUpForm s in
  let w' := (signUp errors backend search form (boot s)).2 in
  name_ok form = true → email_ok form = true → password_ok form = true →
  backend session_payload 0 (signUpRequest form) = failure e →
  requests w' = [signUpRequest form]
  ∧ routes w' = [] ∧ timeouts w' = [] ∧ stored w' = []
  ∧ isLoading (state w') = false
  ∧ currentError (state w') =
      if bool_decide (Http.code e = js "improper-payload") then
        if includes (js "password") (message e)
        then errors !! js "weak-password"
        else errors !! js "invalid-email-address"
      else if bool_decide (Http.code e = js "entity-already-exists")
      then errors !! js "user-already-exists"
      else Some (message e).
Proof.
  intros form w' H1 H2 H3 He. subst w'.
  unfold name_ok, email_ok, password_ok in *.
  unfold signUp. rewrite H1, H2, H3. unfold signUpRequest in He.
  run_M. rewrite He. repeat case_bool_decide; run_M; done.
Qed.

(** C4, as amended.  The message shown for an error response to the
    account-creation call is chosen by the server's code and, for
    'improper-payload', by whether the server's message contains
    'password': 'improper-payload' shows the 'weak-password' text when it
    does and the 'invalid-email-address' text when it does not,
    'entity-already-exists' shows the 'user-already-exists' text, and any
    other code shows the server's own message. *)
Theorem signUp_error_message errors backend search (s : State) (e : error) :
  let form := signUpForm s in
  let shown :=
    currentError (state (signUp errors backend search form (boot s)).2) in
  name_ok form = true → email_ok form = true → password_ok form = true →
  backend session_payload 0 (signUpRequest form) = failure e →
  (Http.code e = js "improper-payload" →
     includes (js "password") (message e) = true →
     shown = errors !! js "weak-password")
  ∧ (Http.code e = js "improper-payload" →
     includes (js "password") (message e) = false →
     shown = errors !! js "invalid-email-address")
  ∧ (Http.code e = js "entity-already-exists" →
     shown = errors !! js "user-already-exists")
  ∧ (Http.code e ≠ js "improper-payload" →
     Http.code e ≠ js "entity-already-exists" →
     shown = Some (message e)).
Proof.
  intros form shown H1 H2 H3 He.
  destruct (signUp_failure errors backend search s e H1 H2 H3 He)
    as (_ & _ & _ & _ & _ & Hshown).
  subst shown. fold form in Hshown. rewrite Hshown. repeat split.
  - intros -> ->. done.
  - intros -> ->. done.
  - intros ->. done.
  - intros Hne1 Hne2. by rewrite !bool_decide_eq_false_2.
Qed.

Lemma signUp_error_message_witness :
  currentError
    (state (signUp Samples.errors (Samples.failing Samples.short_password) []
              Samples.ada (boot (Samples.signUpState Samples.ada))).2)
  = Samples.errors !! js "weak-password".
Proof.
  apply (signUp_error_message Samples.errors
           (Samples.failing Samples.short_password) []
           (Samples.signUpState Samples.ada) Samples.short_password);
    vm_compute; reflexivity.
Defined.

(** C4, as stated, fails: two error responses with the same code
    'improper-payload' are shown as different messages, because the
    [switch] looks for 'password' in the server's message. *)
Lemma signUp_error_message_counterexample :
  Http.code Samples.short_password = Http.code Samples.malformed_email
  ∧ currentError
      (state (signUp Samples.errors (Samples.failing Samples.short_password)
                [] Samples.ada (boot (Samples.signUpState Samples.ada))).2)
    = Some (js "Please choose a longer password.")
  ∧ currentError
      (state (signUp Samples.errors (Samples.failing Samples.malformed_email)
                [] Samples.ada (boot (Samples.signUpState Samples.ada))).2)
    = Some (js "Please enter a valid email address.").
Proof. repeat split; vm_compute; reflexivity. Qed.

(** What [signUp] does when the account is created and the group-join
    call fails. *)
Lemma signUp_join_failure errors backend search (s : State)
    (user : User) (tokens : Tokens) (code' : jsstring) (e : error) :
  let form := signUpForm s in
  let w' := (signUp errors backend search form (boot s)).2 in
  name_ok form = true → email_ok form = true → password_ok form = true →
  backend session_payload 0 (signUpRequest form) = success (user, tokens) →
  truthy (form !! code) = Some code' →
  backend unknown_payload 1 (joinRequest code') = failure e →
  requests w' = [signUpRequest form; joinRequest code']
  ∧ currentError (state w') = Some (message e)
  ∧ timeouts w' = [(route_task (js "/groups") true, 2500%Z)]
  ∧ routes w' = [].
Proof.
  intros form w' H1 H2 H3 Hs Hc He. subst w'.
  unfold name_ok, email_ok, password_ok in *.
  unfold signUp. rewrite H1, H2, H3. unfold signUpRequest in Hs.
  unfold joinRequest in He.
  run_M. rewrite Hs. run_M. rewrite Hc. run_M. rewrite He. run_M. done.
Qed.

(** Every run of [signUp] leaves either no timer or the one timer of the
    failed group-join. *)
Lemma signUp_timeouts errors backend search (s : State) :
  let form := signUpForm s in
  let w' := (signUp errors backend search form (boot s)).2 in
  timeouts w' = []
  ∨ (timeouts w' = [(route_task (js "/groups") true, 2500%Z)]
     ∧ ∃ code' e, truthy (form !! code) = Some code'
         ∧ backend unknown_payload 1 (joinRequest code') = failure e
         ∧ requests w' = [signUpRequest form; joinRequest code']).
Proof.
  intros form w'. subst w'. unfold signUp.
  destruct (test validation.name _); [|by left].
  destruct (test validation.email _); [|by left].
  destruct (test validation.password _); [|by left].
  run_M. destruct (backend session_payload 0 _) as [[u t]|e]; run_M.
  - destruct (truthy (form !! code)) as [c|] eqn:Ec; run_M; [|by left].
    destruct (backend unknown_payload 1 _) as [?|e] eqn:Ej; run_M;
      [by left|].
    right. split; [done|]. exists c, e. done.
  - repeat case_bool_decide; run_M; by left.
Qed.
End signup_responses.

(** ** The take-conversation page *)
Section take_facts.
Import Api Http Runtime VDom Take Calls.

(** The effect of mounting the page, whatever the backend answers and in
    whichever order the two answers arrive. *)
Lemma useEffect_spec (backend : server) (conversationId : jsstring) (arrival : bool) :
  let answered := backend conversation_payload 0
                    (conversationRequest conversationId) in
  let listed := backend questions_payload 1
                  (questionsRequest conversationId) in
  let w' := (useEffect backend conversationId arrival
               (boot initialState)).2 in
  requests w' = [conversationRequest conversationId;
                 questionsRequest conversationId]
  ∧ routes w' = [] ∧ timeouts w' = []
  ∧ conversation (state w')
    = match answered with success c => Some c | failure _ => None end
  ∧ currentQuestion (state w')
    = match listed with
      | success questions => List.find Question.first questions
      | failure _ => None
      end
  ∧ selectedOption (state w') = None
  ∧ currentError (state w')
    = match answered, listed with
      | success _, success _ => None
      | failure e, success _ | success _, failure e => Some (message e)
      | failure e1, failure e2 =>
          Some (message (if arrival then e2 else e1))
      end.
Proof.
  intros answered listed w'. subst answered listed w'.
  unfold useEffect, fetchConversation, fetchQuestions, conversationRequest,
    questionsRequest, initialState.
  run_M.
  destruct (backend conversation_payload 0 _) as [c|e1],
           (backend questions_payload 1 _) as [qs|e2], arrival;
    run_M; done.
Qed.





(** C2.  With no option selected, [answerQuestion] shows the
    'option-was-not-selected' text, makes no call and keeps the current
    question; so a call is only ever made with an option selected. *)
Theorem answerQuestion_nothing_selected (errors : error_table)
    (backend : server) (s : State) :
  let w' := (answerQuestion errors backend s (boot s)).2 in
  (selectedOption s = None →
     currentError (state w') = errors !! js "option-was-not-selected"
     ∧ requests w' = []
     ∧ currentQuestion (state w') = currentQuestion s)
  ∧ (requests w' ≠ [] → is_Some (selectedOption s)).
Proof.
  intros w'. subst w'. unfold answerQuestion.
  destruct (selectedOption s) as [o|] eqn:E; run_M.
  - split; [done|]. by eexists.
  - split; [done|]. intros H. by destruct H.
Qed.

Lemma answerQuestion_nothing_selected_witness :
  currentError
    (state (answerQuestion Samples.errors Samples.healthy
              {| currentError := None; conversation := Some Samples.checkin;
                 currentQuestion := Some Samples.opening;
                 selectedOption := None |}
              (boot {| currentError := None;
                       conversation := Some Samples.checkin;
                       currentQuestion := Some Samples.opening;
                       selectedOption := None |})).2)
  = Some (js "Please select an option.").
Proof.
  destruct (answerQuestion_nothing_selected Samples.errors Samples.healthy
              {| currentError := None; conversation := Some Samples.checkin;
                 currentQuestion := Some Samples.opening;
                 selectedOption := None |}) as [H _].
  destruct (H eq_refl) as [Herror _]. rewrite Herror.
  vm_compute. reflexivity.
Defined.

(** What [answerQuestion] does from a state in which the conversation and
    its current question are loaded and the selected option, when it is of
    type ['input'], carries an attribute: one call, with the option's
    position and, as input, the attribute's value for an ['input'] option
    and nothing for a ['select'] option; then the next question, or the
    conversation list when there is none, or the server's message. *)
Lemma answerQuestion_submits (errors : error_table) (backend : server)
    (s : State)
    (c : Conversation.t) (q : Question.t) (o : Option.t) :
  conversation s = Some c → currentQuestion s = Some q →
  selectedOption s = Some o →
  (Option.type o = Option.input → is_Some (Option.attribute o)) →
  let input := match Option.type o with
               | Option.select => None
               | Option.input => Attribute.value <$> Option.attribute o
               end in
  let call := answerRequest c q (Option.position o) input in
  let w' := (answerQuestion errors backend s (boot s)).2 in
  requests w' = [call]
  ∧ timeouts w' = []
  ∧ selectedOption (state w') = None
  ∧ match backend next_payload 0 call with
    | success (Some next) =>
        currentQuestion (state w') = Some next ∧ routes w' = []
        ∧ currentError (state w') = None
    | success None =>
        currentQuestion (state w') = None
        ∧ routes w' = [(js "/conversations", false)]
        ∧ currentError (state w') = None
    | failure e =>
        currentError (state w') = Some (message e)
        ∧ currentQuestion (state w') = None ∧ routes w' = []
    end.
Proof.
  intros Hc Hq Ho Hattr input call w'. subst input call w'.
  unfold answerQuestion, answerRequest. rewrite Hc, Hq, Ho.
  destruct (Option.type o) eqn:Et.
  - run_M.
    destruct (backend next_payload 0 _) as [[next|]|e]; run_M; done.
  - destruct (Hattr eq_refl) as [a Ha]. rewrite Ha. run_M.
    destruct (backend next_payload 0 _) as [[next|]|e]; run_M; done.
Qed.

(** C1 at a state the page reaches.  The conversation cannot be fetched
    while its questions can; the opening question is shown, the user picks
    the option 'Yes' and presses Next.  [answerQuestion] clears the question
    and the selection and then throws on [conversation!.id]: the answer is
    never sent. *)
Theorem answerQuestion_without_conversation :
  let loaded := (useEffect Samples.conversation_down (js "c1") true
                   (boot initialState)).2 in
  let picked := (fire Samples.errors Samples.conversation_down
                   (update Samples.yes) [] (state loaded) loaded).2 in
  let pressed := fire Samples.errors Samples.conversation_down answer []
                   (state picked) picked in
  (conversation (state picked) = None
   ∧ currentQuestion (state picked) = Some Samples.opening
   ∧ selectedOption (state picked) = Some Samples.yes)
  ∧ pressed.1 = thrown (TypeError (js "id"))
  ∧ requests pressed.2 = [conversationRequest (js "c1");
                          questionsRequest (js "c1")]
  ∧ currentQuestion (state pressed.2) = None
  ∧ routes pressed.2 = [].
Proof. repeat split; vm_compute; reflexivity. Qed.
(** The same unchecked assertion on the attribute: with the conversation
    and the question loaded, an ['input'] option that carries no attribute
    makes [answerQuestion] throw on [attribute!.value] before any call. *)
Example answerQuestion_without_attribute :
  let s := {| currentError := None; conversation := Some Samples.checkin;
              currentQuestion := Some Samples.closing;
              selectedOption := Some Samples.bare |} in
  (answerQuestion Samples.errors Samples.healthy s (boot s)).1
  = thrown (TypeError (js "value"))
  ∧ requests (answerQuestion Samples.errors Samples.healthy s (boot s)).2
    = [].
Proof. split; vm_compute; reflexivity. Qed.

(** A run of the page on the healthy backend: the opening question is
    shown, the user types "rain" into the text input of its second option
    and presses Next; the text typed is the [input] of the call, and the
    question that the server returns becomes the current one. *)
Example typed_text_is_sent :
  let loaded := (useEffect Samples.healthy (js "c1") false
                   (boot initialState)).2 in
  let typed := (fire Samples.errors Samples.healthy
                  (type_into 1 Samples.other) (js "rain")
                  (state loaded) loaded).2 in
  let pressed := (fire Samples.errors Samples.healthy answer []
                    (state typed) typed).2 in
  requests pressed
  = [conversationRequest (js "c1"); questionsRequest (js "c1");
     answerRequest Samples.checkin Samples.opening 2 (Some (js "rain"))]
  ∧ currentQuestion (state pressed) = Some Samples.closing
  ∧ (Question.options <$> currentQuestion (state typed))
    = Some [Samples.yes; with_value Samples.other (js "rain")].
Proof. repeat split; vm_compute; reflexivity. Qed.
End take_facts.

(** ** [Array.prototype.sort] *)
Section sort_facts.
Context {A : Type} (comparefn : A → A → Z).

Hypothesis before_total :
  ∀ a b, before comparefn a b ∨ before comparefn b a.

Lemma sort_insert_perm (x : A) (l : list A) :
  sort_insert comparefn x l ≡ₚ x :: l.
Proof.
  induction l as [|y l IH]; simpl; [done|].
  destruct (comparefn x y <=? 0)%Z; [done|].
  rewrite IH. apply Permutation_swap.
Qed.

Lemma sort_perm (l : list A) : sort comparefn l ≡ₚ l.
Proof.
  induction l as [|x l IH]; simpl; [done|].
  by rewrite sort_insert_perm, IH.
Qed.

Lemma sort_insert_HdRel (a x : A) (l : list A) :
  before comparefn a x → HdRel (before comparefn) a l → HdRel (before comparefn) a (sort_insert comparefn x l).
Proof.
  intros Hax Hal. destruct l as [|y l]; simpl; [by constructor|].
  destruct (comparefn x y <=? 0)%Z; constructor; [done|].
  by inversion Hal.
Qed.

Lemma sort_insert_Sorted (x : A) (l : list A) :
  Sorted (before comparefn) l → Sorted (before comparefn) (sort_insert comparefn x l).
Proof.
  induction 1 as [|y l Hl IH Hy]; simpl; [by repeat constructor|].
  destruct (Z.leb_spec (comparefn x y) 0) as [Hxy|Hxy].
  - repeat constructor; done.
  - constructor; [done|]. apply sort_insert_HdRel; [|done].
    destruct (before_total x y) as [H|H]; [|done]. unfold before in H. lia.
Qed.

Lemma sort_Sorted (l : list A) : Sorted (before comparefn) (sort comparefn l).
Proof.
  induction l as [|x l IH]; simpl; [constructor|].
  by apply sort_insert_Sorted.
Qed.

(** The sort is stable: the elements of a class whose members all compare
    as equal to, or in order with, each other come out in the order they
    went in. *)
Lemma sort_insert_filter (P : A → bool) (x : A) (l : list A) :
  (∀ a b, P a = true → P b = true → before comparefn a b) →
  List.filter P (sort_insert comparefn x l) = List.filter P (x :: l).
Proof.
  intros Hclass. induction l as [|y l IH]; simpl; [done|].
  destruct (Z.leb_spec (comparefn x y) 0) as [Hxy|Hxy]; [done|].
  simpl. rewrite IH. simpl.
  destruct (P x) eqn:Ex, (P y) eqn:Ey; try done.
  specialize (Hclass x y Ex Ey). unfold before in Hclass. lia.
Qed.

Lemma sort_stable (P : A → bool) (l : list A) :
  (∀ a b, P a = true → P b = true → before comparefn a b) →
  List.filter P (sort comparefn l) = List.filter P l.
Proof.
  intros Hclass. induction l as [|x l IH]; simpl; [done|].
  rewrite sort_insert_filter by done. simpl. by rewrite IH.
Qed.
End sort_facts.

Section samples_facts.
Import Samples.

Lemma compare_units_total (a b : jsstring) :
  (compare_units a b <= 0 ∨ compare_units b a <= 0)%Z.
Proof.
  revert b. induction a as [|x a IH]; intros [|y b]; simpl; try lia.
  destruct (N.ltb_spec x y), (N.ltb_spec y x); try lia. apply IH.
Qed.

Lemma compare_units_trans (a b c : jsstring) :
  (compare_units a b <= 0 → compare_units b c <= 0
   → compare_units a c <= 0)%Z.
Proof.
  revert b c. induction a as [|x a IH]; intros [|y b] [|z c]; simpl;
    try lia.
  destruct (N.ltb_spec x y), (N.ltb_spec y x), (N.ltb_spec y z),
    (N.ltb_spec z y), (N.ltb_spec x z), (N.ltb_spec z x); try lia.
  apply IH.
Qed.
End samples_facts.

(** ** The conversation-list page *)
Section list_facts.
Import Api Http Runtime VDom ConversationList ListView Calls.

Lemma bind_fmap_nil {A B C} (f : B → list C) (g : A → B) (l : list A) :
  (∀ x, f (g x) = []) → (g <$> l) ≫= f = [].
Proof.
  intros Hnil. induction l as [|x l IH]; [done|].
  cbn. by rewrite Hnil, IH.
Qed.

Lemma bind_fmap_each {A B C} (f : B → list C) (g : A → B) (k : A → C)
    (l : list A) :
  (∀ x, f (g x) = [k x]) → (g <$> l) ≫= f = k <$> l.
Proof.
  intros Hone. induction l as [|x l IH]; [done|].
  cbn. by rewrite Hone, IH.
Qed.

(** The table body holds one row per conversation, in the order of the
    state. *)
Lemma rows_spec (groot : bool) (s : State) :
  rows (ConversationListPage groot s)
  = (λ c, ConversationItem c groot) <$> default [] (conversations s).
Proof.
  unfold rows, ConversationListPage.
  destruct groot, (conversations s) as [l|]; cbn; try done.
  all: rewrite (bind_fmap_each flatten _ (λ c, ConversationItem c _))
    by done.
  all: rewrite bind_fmap_nil; [by rewrite !app_nil_r|].
  all: intros c; cbn; rewrite ?bind_fmap_nil; done.
Qed.

Lemma row_view_spec (groot : bool) (c : Conversation.t) :
  row_view (ConversationItem c groot) = row_of c.
Proof.
  unfold row_view, row_of, controls, cells, ConversationItem.
  destruct groot; cbn; eval_literals; cbn; rewrite ?bind_fmap_nil by done;
    cbn; rewrite ?app_nil_r; unfold control_of, action_of; cbn;
    eval_literals; done.
Qed.






End list_facts.

Section list_claims.
Import Api Http Runtime VDom ConversationList ListView Calls.

(** The effect of mounting the list page. *)
Lemma list_useEffect_spec (localeCompare : jsstring → jsstring → Z)
    (backend : server) :
  let w' := (useEffect localeCompare backend (boot initialState)).2 in
  requests w' = [conversationsRequest] ∧ routes w' = [] ∧ timeouts w' = []
  ∧ match backend conversations_payload 0 conversationsRequest with
    | success fetched =>
        conversations (state w')
        = Some (sort (λ a b, localeCompare (Conversation.name a)
                                           (Conversation.name b)) fetched)
        ∧ currentError (state w') = None
    | failure e =>
        conversations (state w') = None
        ∧ currentError (state w') = Some (message e)
    end.
Proof.
  intros w'. subst w'.
  unfold useEffect, fetchConversations, conversationsRequest, initialState.
  run_M. destruct (backend conversations_payload 0 _) as [l|e]; run_M; done.
Qed.

(** Every row reads as the row of its conversation, with or without
    [groot]. *)
Lemma rows_view_spec (groot : bool) (s : State) :
  row_view <$> rows (ConversationListPage groot s)
  = row_of <$> default [] (conversations s).
Proof.
  rewrite rows_spec, <- list_fmap_compose.
  apply list_fmap_ext. intros _ c _. apply row_view_spec.
Qed.


(** C9.  Whatever the order in which the server lists the conversations,
    the page keeps them, and shows their rows, in ascending order of name
    under [localeCompare] (a total and transitive comparison, as the
    language requires of it). *)
Theorem conversations_shown_sorted
    (localeCompare : jsstring → jsstring → Z) (backend : server)
    (groot : bool) (fetched : list Conversation.t) :
  (∀ a b, (localeCompare a b <= 0 ∨ localeCompare b a <= 0)%Z) →
  (∀ a b c, (localeCompare a b <= 0 → localeCompare b c <= 0 →
             localeCompare a c <= 0)%Z) →
  backend conversations_payload 0 conversationsRequest = success fetched →
  let s' := state (useEffect localeCompare backend (boot initialState)).2 in
  ∃ shown,
    conversations s' = Some shown
    ∧ shown ≡ₚ fetched
    ∧ StronglySorted
        (λ a b, (localeCompare (Conversation.name a) (Conversation.name b)
                 <= 0)%Z) shown
    ∧ row_view <$> rows (ConversationListPage groot s') = row_of <$> shown.
Proof.
  intros Htotal Htrans Hfetched s'.
  destruct (list_useEffect_spec localeCompare backend) as (_ & _ & _ & Hs).
  rewrite Hfetched in Hs. destruct Hs as [Hs _]. fold s' in Hs.
  eexists. split; [exact Hs|]. split; [apply sort_perm|]. split.
  - apply Sorted_StronglySorted.
    + intros a b c. apply Htrans.
    + apply (sort_Sorted (λ a b, localeCompare (Conversation.name a)
                                               (Conversation.name b))).
      intros a b. apply Htotal.
  - by rewrite rows_view_spec, Hs.
Qed.

Lemma conversations_shown_sorted_witness :
  ∃ shown,
    conversations
      (state (useEffect Samples.compare_units Samples.healthy
                (boot initialState)).2) = Some shown
    ∧ shown ≡ₚ [Samples.checkin; Samples.onboarding; Samples.goals]
    ∧ StronglySorted
        (λ a b, (Samples.compare_units (Conversation.name a)
                   (Conversation.name b) <= 0)%Z) shown
    ∧ row_view <$>
        rows (ConversationListPage false
                (state (useEffect Samples.compare_units Samples.healthy
                          (boot initialState)).2))
      = row_of <$> shown.
Proof.
  exact (conversations_shown_sorted Samples.compare_units Samples.healthy
           false [Samples.checkin; Samples.onboarding; Samples.goals]
           compare_units_total compare_units_trans eq_refl).
Defined.

(** On the sample list the rows read Goals, Onboarding, Weekly check-in. *)
Example conversations_shown_sorted_sample :
  (λ row, (row_view row).1.1) <$>
    rows (ConversationListPage false
            (state (useEffect Samples.compare_units Samples.healthy
                      (boot initialState)).2))
  = [Some (js "Goals"); Some (js "Onboarding"); Some (js "Weekly check-in")].
Proof. vm_compute. reflexivity. Qed.
End list_claims.

(** ** Across the pages *)
Section across_pages.
Import Api Http Runtime Calls.

(** No handler of the take page sets a timer. *)
Lemma take_fire_timeouts (errors : error_table) (backend : server)
    (h : Take.handler) (value : jsstring) (s : Take.State) :
  timeouts (Take.fire errors backend h value s (boot s)).2 = [].
Proof.
  destruct h as [|o|i o]; unfold Take.fire; [|done..].
  unfold Take.answerQuestion.
  destruct (Take.selectedOption s) as [o|]; [|done].
  destruct (Take.conversation s) as [c|]; [|done].
  destruct (Take.currentQuestion s) as [q|]; [|done].
  destruct (Option.type o) eqn:Et; run_M.
  - destruct (backend next_payload 0 _) as [[next|]|e]; run_M; done.
  - destruct (Option.attribute o) as [a|]; run_M; [|done].
    destruct (backend next_payload 0 _) as [[next|]|e]; run_M; done.
Qed.

(** C7.  When the account is created and the group-join call fails,
    [signUp] shows the server's message, makes no navigation and sets one
    timer: 2500 ms later it navigates to [/groups].  No other run of
    [signUp], and no other operation of the pages, sets a timer. *)
Theorem delayed_redirect_only_after_join_failure :
  (∀ (errors : error_table) (backend : server) (search : search_params)
     (s : SignUp.State) (user : User) (tokens : Tokens) (code' : jsstring)
     (e : error),
     let form := SignUp.signUpForm s in
     let w' := (SignUp.signUp errors backend search form (boot s)).2 in
     name_ok form = true → email_ok form = true → password_ok form = true →
     backend session_payload 0 (signUpRequest form)
       = success (user, tokens) →
     SignUp.truthy (form !! SignUpForm.code) = Some code' →
     backend unknown_payload 1 (joinRequest code') = failure e →
     SignUp.currentError (state w') = Some (message e)
     ∧ timeouts w' = [(route_task (js "/groups") true, 2500%Z)]
     ∧ routes w' = []
     ∧ routes (run_task (route_task (js "/groups") true) w').2
       = [(js "/groups", true)])
  ∧ (∀ (errors : error_table) (backend : server) (search : search_params)
       (s : SignUp.State),
       let form := SignUp.signUpForm s in
       let w' := (SignUp.signUp errors backend search form (boot s)).2 in
       timeouts w' = []
       ∨ (timeouts w' = [(route_task (js "/groups") true, 2500%Z)]
          ∧ ∃ code' e,
              SignUp.truthy (form !! SignUpForm.code) = Some code'
              ∧ backend unknown_payload 1 (joinRequest code') = failure e
              ∧ requests w' = [signUpRequest form; joinRequest code']))
  ∧ (∀ (search : search_params) (isAuthenticated : bool) (s : SignUp.State),
       timeouts (SignUp.SignUpPage search isAuthenticated (boot s)).2 = [])
  ∧ (∀ (a : SignUpForm.action) (s : SignUp.State),
       timeouts (SignUp.dispatch a (boot s)).2 = [])
  ∧ (∀ (backend : server) (conversationId : jsstring) (arrival : bool),
       timeouts (Take.useEffect backend conversationId arrival
                   (boot Take.initialState)).2 = [])
  ∧ (∀ (errors : error_table) (backend : server) (h : Take.handler)
       (value : jsstring) (s : Take.State),
       timeouts (Take.fire errors backend h value s (boot s)).2 = [])
  ∧ (∀ (localeCompare : jsstring → jsstring → Z) (backend : server),
       timeouts (ConversationList.useEffect localeCompare backend
                   (boot ConversationList.initialState)).2 = [])
  ∧ (∀ (h : ConversationList.handler) (s : ConversationList.State),
       timeouts (ConversationList.fire h (boot s)).2 = []).
Proof.
  split; [|split; [|split; [|split; [|split; [|split; [|split]]]]]].
  - intros errors backend search s user tokens code' e form w' H1 H2 H3
      Hs Hc He.
    destruct (signUp_join_failure errors backend search s user tokens
                code' e H1 H2 H3 Hs Hc He) as (_ & Herr & Htimer & Hroutes).
    fold form w' in Herr, Htimer, Hroutes.
    repeat split; try done. clearbody w'. unfold run_task, route. cbn.
    by rewrite Hroutes.
  - apply signUp_timeouts.
  - intros search isAuthenticated s. by destruct isAuthenticated.
  - done.
  - intros backend conversationId arrival.
    by destruct (useEffect_spec backend conversationId arrival)
      as (_ & _ & ? & _).
  - apply take_fire_timeouts.
  - intros localeCompare backend.
    by destruct (list_useEffect_spec localeCompare backend)
      as (_ & _ & ? & _).
  - intros h s. by destruct h.
Qed.

Lemma delayed_redirect_only_after_join_failure_witness :
  timeouts (SignUp.signUp Samples.errors Samples.code_refused []
              Samples.ada_with_code
              (boot (Samples.signUpState Samples.ada_with_code))).2
  = [(route_task (js "/groups") true, 2500%Z)]
  ∧ routes (SignUp.signUp Samples.errors Samples.code_refused []
              Samples.ada_with_code
              (boot (Samples.signUpState Samples.ada_with_code))).2 = [].
Proof.
  destruct delayed_redirect_only_after_join_failure as [H _].
  destruct (H Samples.errors Samples.code_refused []
              (Samples.signUpState Samples.ada_with_code)
              (JObject []) (JObject []) (js "engines") Samples.unknown_code
              eq_refl eq_refl eq_refl eq_refl eq_refl eq_refl)
    as (_ & Htimer & Hroutes & _).
  split; [exact Htimer|exact Hroutes].
Defined.

(** C6.  A call that is answered with an error is made once, and the
    message on screen is the server's message (for the account-creation
    call, the text that the code of the error selects): the two fetches of
    the take page, the fetch of the list page, the answer submission, the
    account creation and the group join. *)
Theorem failed_calls_shown_not_retried :
  (∀ (backend : server) (conversationId : jsstring) (arrival : bool)
     (e : error),
     let w' := (Take.useEffect backend conversationId arrival
                  (boot Take.initialState)).2 in
     backend conversation_payload 0 (conversationRequest conversationId)
       = failure e →
     requests w' = [conversationRequest conversationId;
                    questionsRequest conversationId]
     ∧ (Take.currentError (state w') = Some (message e)
        ∨ ∃ e', backend questions_payload 1
                  (questionsRequest conversationId) = failure e'
                ∧ Take.currentError (state w') = Some (message e')))
  ∧ (∀ (backend : server) (conversationId : jsstring) (arrival : bool)
       (e : error),
       let w' := (Take.useEffect backend conversationId arrival
                    (boot Take.initialState)).2 in
       backend questions_payload 1 (questionsRequest conversationId)
         = failure e →
       requests w' = [conversationRequest conversationId;
                      questionsRequest conversationId]
       ∧ (Take.currentError (state w') = Some (message e)
          ∨ ∃ e', backend conversation_payload 0
                    (conversationRequest conversationId) = failure e'
                  ∧ Take.currentError (state w') = Some (message e')))
  ∧ (∀ (localeCompare : jsstring → jsstring → Z) (backend : server)
       (e : error),
       let w' := (ConversationList.useEffect localeCompare backend
                    (boot ConversationList.initialState)).2 in
       backend conversations_payload 0 conversationsRequest = failure e →
       requests w' = [conversationsRequest]
       ∧ ConversationList.currentError (state w') = Some (message e))
  ∧ (∀ (errors : error_table) (backend : server) (s : Take.State)
       (c : Conversation.t) (q : Question.t) (o : Option.t) (e : error),
       let input := match Option.type o with
                    | Option.select => None
                    | Option.input => Attribute.value <$> Option.attribute o
                    end in
       let call := answerRequest c q (Option.position o) input in
       let w' := (Take.answerQuestion errors backend s (boot s)).2 in
       Take.conversation s = Some c → Take.currentQuestion s = Some q →
       Take.selectedOption s = Some o →
       (Option.type o = Option.input → is_Some (Option.attribute o)) →
       backend next_payload 0 call = failure e →
       requests w' = [call]
       ∧ Take.currentError (state w') = Some (message e))
  ∧ (∀ (errors : error_table) (backend : server) (search : search_params)
       (s : SignUp.State) (e : error),
       let form := SignUp.signUpForm s in
       let w' := (SignUp.signUp errors backend search form (boot s)).2 in
       name_ok form = true → email_ok form = true →
       password_ok form = true →
       backend session_payload 0 (signUpRequest form) = failure e →
       requests w' = [signUpRequest form]
       ∧ SignUp.currentError (state w') =
           if bool_decide (Http.code e = js "improper-payload") then
             if includes (js "password") (message e)
             then errors !! js "weak-password"
             else errors !! js "invalid-email-address"
           else if bool_decide (Http.code e = js "entity-already-exists")
           then errors !! js "user-already-exists"
           else Some (message e))
  ∧ (∀ (errors : error_table) (backend : server) (search : search_params)
       (s : SignUp.State) (user : User) (tokens : Tokens)
       (code' : jsstring) (e : error),
       let form := SignUp.signUpForm s in
       let w' := (SignUp.signUp errors backend search form (boot s)).2 in
       name_ok form = true → email_ok form = true →
       password_ok form = true →
       backend session_payload 0 (signUpRequest form)
         = success (user, tokens) →
       SignUp.truthy (form !! SignUpForm.code) = Some code' →
       backend unknown_payload 1 (joinRequest code') = failure e →
       requests w' = [signUpRequest form; joinRequest code']
       ∧ SignUp.currentError (state w') = Some (message e)).
Proof.
  split; [|split; [|split; [|split; [|split]]]].
  - intros backend conversationId arrival e w' He.
    destruct (useEffect_spec backend conversationId arrival)
      as (Hreq & _ & _ & _ & _ & _ & Herr).
    fold w' in Hreq, Herr. split; [done|]. rewrite He in Herr.
    destruct (backend questions_payload 1 _) as [qs|e'] eqn:E;
      [by left|].
    destruct arrival; [right; by exists e'|by left].
  - intros backend conversationId arrival e w' He.
    destruct (useEffect_spec backend conversationId arrival)
      as (Hreq & _ & _ & _ & _ & _ & Herr).
    fold w' in Hreq, Herr. split; [done|]. rewrite He in Herr.
    destruct (backend conversation_payload 0 _) as [c|e'] eqn:E;
      [by left|].
    destruct arrival; [by left|right; by exists e'].
  - intros localeCompare backend e w' He.
    destruct (list_useEffect_spec localeCompare backend)
      as (Hreq & _ & _ & Hs).
    fold w' in Hreq, Hs. rewrite He in Hs. by destruct Hs.
  - intros errors backend s c q o e input call w' Hc Hq Ho Hattr He.
    destruct (answerQuestion_submits errors backend s c q o Hc Hq Ho Hattr)
      as (Hreq & _ & _ & Hs).
    fold input call w' in Hreq, Hs. rewrite He in Hs. by destruct Hs.
  - intros errors backend search s e form w' H1 H2 H3 He.
    by destruct (signUp_failure errors backend search s e H1 H2 H3 He)
      as (? & _ & _ & _ & _ & ?).
  - intros errors backend search s user tokens code' e form w' H1 H2 H3
      Hs Hc He.
    by destruct (signUp_join_failure errors backend search s user tokens
                   code' e H1 H2 H3 Hs Hc He) as (? & ? & _).
Qed.

Lemma failed_calls_shown_not_retried_witness :
  requests (Take.useEffect Samples.conversation_down (js "c1") true
              (boot Take.initialState)).2
  = [conversationRequest (js "c1"); questionsRequest (js "c1")]
  ∧ Take.currentError
      (state (Take.useEffect Samples.conversation_down (js "c1") true
                (boot Take.initialState)).2)
    = Some (js "The conversation does not exist.").
Proof.
  destruct failed_calls_shown_not_retried as [H _].
  destruct (H Samples.conversation_down (js "c1") true
              {| Http.code := js "entity-not-found";
                 message := js "The conversation does not exist." |}
              eq_refl) as [Hreq _].
  split; [exact Hreq|]. vm_compute. reflexivity.
Defined.
End across_pages.

(** * Further properties of the pages *)

(** ** The sign-up page: success, invariants, validation *)
Section signup_more.
Import Api Http Runtime SignUpForm SignUp RegExp Calls.

(** Every run of [signUp], by what the backend answers. *)
Lemma signUp_runs (errors : error_table) (backend : server)
    (search : search_params) (s : State) :
  let form := signUpForm s in
  let target := default (js "/") (search_get (js "redirect") search) in
  let w' := (signUp errors backend search form (boot s)).2 in
  (name_ok form && email_ok form && password_ok form = false
   ∧ requests w' = [] ∧ stored w' = [] ∧ routes w' = [] ∧ timeouts w' = []
   ∧ isLoading (state w') = false)
  ∨ (∃ e, backend session_payload 0 (signUpRequest form) = failure e
     ∧ requests w' = [signUpRequest form] ∧ stored w' = [] ∧ routes w' = []
     ∧ timeouts w' = [] ∧ isLoading (state w') = false)
  ∨ (∃ user tokens,
       backend session_payload 0 (signUpRequest form) = success (user, tokens)
       ∧ stored w' = [(js "user", user); (js "tokens", tokens)]
       ∧ ((truthy (form !! code) = None
           ∧ requests w' = [signUpRequest form]
           ∧ routes w' = [(target, true)] ∧ timeouts w' = []
           ∧ isLoading (state w') = false
           ∧ currentError (state w') = None)
          ∨ (∃ code', truthy (form !! code) = Some code'
             ∧ requests w' = [signUpRequest form; joinRequest code']
             ∧ ((∃ u, backend unknown_payload 1 (joinRequest code')
                      = success u
                 ∧ routes w' = [(target, true)] ∧ timeouts w' = []
                 ∧ isLoading (state w') = false
                 ∧ currentError (state w') = None)
                ∨ (∃ e, backend unknown_payload 1 (joinRequest code')
                        = failure e
                   ∧ routes w' = []
                   ∧ timeouts w' = [(route_task (js "/groups") true, 2500%Z)]
                   ∧ isLoading (state w') = true))))).
Proof.
  intros form target w'. subst w' target.
  unfold name_ok, email_ok, password_ok, signUp, signUpRequest, joinRequest.
  destruct (test validation.name _); [|left; run_M; done].
  destruct (test validation.email _); [|left; run_M; done].
  destruct (test validation.password _); [|left; run_M; done].
  right. run_M.
  destruct (backend session_payload 0 _) as [[u t]|e] eqn:Es; run_M.
  - right. exists u, t. split; [done|].
    destruct (truthy (form !! code)) as [c|] eqn:Ec; run_M.
    + destruct (backend unknown_payload 1 _) as [r|e] eqn:Ej; run_M.
      * split; [done|]. right. exists c. do 2 (split; [done|]).
        left. by exists r.
      * split; [done|]. right. exists c. do 2 (split; [done|]).
        right. by exists e.
    + split; [done|]. by left.
  - left. exists e. split; [done|]. repeat case_bool_decide; run_M; done.
Qed.

(** X1.  When the account is created and no group code was typed, or the
    group is joined, [signUp] stores the user and the tokens under 'user'
    and 'tokens', switches the loading indicator off, shows no error and
    navigates once, replacing the history entry, to the [redirect]
    parameter of the URL, or to [/] when there is none: the place an
    authenticated visitor of the page is sent to. *)
Theorem signUp_success_redirects (errors : error_table) (backend : server)
    (search : search_params) (s : State) (user : User) (tokens : Tokens) :
  let form := signUpForm s in
  let w' := (signUp errors backend search form (boot s)).2 in
  name_ok form = true → email_ok form = true → password_ok form = true →
  backend session_payload 0 (signUpRequest form) = success (user, tokens) →
  (truthy (form !! code) = None
   ∨ ∃ code' joined, truthy (form !! code) = Some code'
       ∧ backend unknown_payload 1 (joinRequest code') = success joined) →
  stored w' = [(js "user", user); (js "tokens", tokens)]
  ∧ routes w'
    = [(default (js "/") (search_get (js "redirect") search), true)]
  ∧ routes w' = routes (SignUpPage search true (boot s)).2
  ∧ requests w'
    = signUpRequest form
      :: match truthy (form !! code) with
         | Some code' => [joinRequest code']
         | None => []
         end
  ∧ isLoading (state w') = false
  ∧ currentError (state w') = None
  ∧ timeouts w' = [].
Proof.
  intros form w' H1 H2 H3 Hs Hcode.
  destruct (signUp_runs errors backend search s)
    as [(Hrej & _)|[(e & He & _)|(u & t & Hs' & Hst & Hrest)]];
    fold form in Hrej || fold form in He || fold form w' in Hs', Hst, Hrest.
  - by rewrite H1, H2, H3 in Hrej.
  - congruence.
  - assert (u = user ∧ t = tokens) as [-> ->] by (split; congruence).
    destruct Hrest as [(Hc & Hreq & Hr & Ht & Hl & He)
                      |(c & Hc & Hreq & Hjoin)].
    + rewrite Hc. by rewrite Hr.
    + rewrite Hc.
      destruct Hjoin as [(r & Hj & Hr & Ht & Hl & He)|(e & Hj & _)].
      * by rewrite Hr.
      * destruct Hcode as [Hn|(c' & r & Hc' & Hj')]; congruence.
Qed.

Lemma signUp_success_redirects_witness :
  stored (signUp Samples.errors Samples.healthy
            [(js "redirect", js "/groups")] Samples.ada_with_code
            (boot (Samples.signUpState Samples.ada_with_code))).2
  = [(js "user", JObject []); (js "tokens", JObject [])]
  ∧ routes (signUp Samples.errors Samples.healthy
              [(js "redirect", js "/groups")] Samples.ada_with_code
              (boot (Samples.signUpState Samples.ada_with_code))).2
    = [(js "/groups", true)].
Proof.
  destruct (signUp_success_redirects Samples.errors Samples.healthy
              [(js "redirect", js "/groups")]
              (Samples.signUpState Samples.ada_with_code)
              (JObject []) (JObject []) eq_refl eq_refl eq_refl eq_refl)
    as (Hstored & Hroutes & _).
  - right. exists (js "engines"), tt. split; reflexivity.
  - split; [exact Hstored|exact Hroutes].
Defined.

End signup_more.

(** ** The sign-up page: what is on screen *)
Section signup_screen.
Import Api Http Runtime VDom SignUpForm SignUp Calls PageView.

Lemma signUp_page_controls (s : State) :
  on_screen (js "signup-button") (SignUpRender.page s)
  = [negb (isLoading s)]
  ∧ loading_indicator (SignUpRender.page s) = [Some (flag (isLoading s))]
  ∧ toast (SignUpRender.page s) = [Some (opt (currentError s))]
  ∧ input_values (SignUpRender.page s)
    = (λ k, Some (opt (signUpForm s !! k)))
        <$> [name; email; password; code].
Proof.
  unfold on_screen, loading_indicator, toast, input_values, props_at,
    SignUpRender.page.
  destruct (isLoading s); cbn; eval_literals; cbn; unfold is_hidden; cbn;
    eval_literals; done.
Qed.

(** X3.  After every run of [signUp] the Sign Up button is back on screen
    and the loading indicator is off, except when the group join has
    failed: then the button stays hidden and the indicator on, while the
    timer of the delayed redirect is pending. *)
Theorem signUp_button_comes_back (errors : error_table) (backend : server)
    (search : search_params) (s : State) :
  let w' := (signUp errors backend search (signUpForm s) (boot s)).2 in
  let pending := match timeouts w' with [] => false | _ :: _ => true end in
  isLoading (state w') = pending
  ∧ on_screen (js "signup-button") (SignUpRender.page (state w'))
    = [negb pending]
  ∧ loading_indicator (SignUpRender.page (state w'))
    = [Some (flag pending)].
Proof.
  intros w' pending.
  assert (isLoading (state w') = pending) as Hl.
  { subst pending.
    destruct (signUp_runs errors backend search s)
      as [(_ & _ & _ & _ & Ht & Hl)
         |[(e & _ & _ & _ & _ & Ht & Hl)|(u & t & _ & _ & Hrest)]];
      fold w' in Ht, Hl || fold w' in Hrest.
    - by rewrite Ht, Hl.
    - by rewrite Ht, Hl.
    - destruct Hrest as [(_ & _ & _ & Ht & Hl & _)|(c & _ & _ & Hjoin)].
      + by rewrite Ht, Hl.
      + destruct Hjoin as [(r & _ & _ & Ht & Hl & _)|(e & _ & _ & Ht & Hl)];
          by rewrite Ht, Hl. }
  destruct (signUp_page_controls (state w')) as (Hb & Hi & _).
  by rewrite Hb, Hi, Hl.
Qed.




End signup_screen.

(** ** The sign-up page: the checks, the reducer, the first message *)
Section signup_checks.
Import Api Http Runtime SignUpForm SignUp RegExp Calls.

Lemma forallb_false_elem {A} (f : A → bool) (l : list A) :
  forallb f l = false ↔ ∃ x, x ∈ l ∧ f x = false.
Proof.
  induction l as [|y l IH]; simpl.
  - split; [done|]. intros (x & Hx & _). by apply elem_of_nil in Hx.
  - rewrite andb_false_iff, IH. split.
    + intros [Hy|(x & Hx & Hfx)]; [exists y|exists x]; split; try done;
        [left|by right].
    + intros (x & [->|Hx]%elem_of_cons & Hfx); [by left|right; by exists x].
Qed.

(** X6.  The name check passes exactly when the field holds a string that
    does not begin with a line terminator and has a code unit that is not
    white space.  A missing, empty or blank name fails, and so does a name
    that follows a line break. *)
Theorem name_check_spec (form : gmap key jsstring) :
  name_ok form = true ↔
  ∃ c rest, form !! name = Some (c :: rest)
    ∧ is_line_terminator c = false
    ∧ ∃ d, d ∈ c :: rest ∧ space d = false.
Proof.
  unfold name_ok. rewrite validation_name_spec, forallb_false_elem.
  unfold dot. split.
  - intros ((d & Hd & Hsp) & c & rest & Hs & Hc).
    destruct (form !! name) as [s|]; simpl in *; [|done]. subst s.
    exists c, rest. apply negb_true_iff in Hc. eauto.
  - intros (c & rest & -> & Hc & d & Hd & Hsp). simpl. split; [eauto|].
    exists c, rest. by rewrite Hc.
Qed.

(** X7.  The email check passes exactly when the field holds a string
    without white space in which some [@] is neither the first nor the
    last code unit; further [@] signs are accepted. *)
Theorem email_check_spec (form : gmap key jsstring) :
  email_ok form = true ↔
  ∃ u v, form !! email = Some (u ++ 0x40%N :: v) ∧ u ≠ [] ∧ v ≠ []
    ∧ ∀ c, c ∈ u ++ v → space c = false.
Proof.
  unfold email_ok. rewrite validation_email_spec. split.
  - intros (u & v & Hs & Hu & Hv & Hau & Hav).
    destruct (form !! email) as [s|]; simpl in *;
      [|by destruct u]. subst s.
    exists u, v. repeat split; try done.
    intros c [Hc|Hc]%elem_of_app.
    + rewrite forallb_forall in Hau. apply list_elem_of_In in Hc.
      specialize (Hau c Hc). by apply negb_true_iff in Hau.
    + rewrite forallb_forall in Hav. apply list_elem_of_In in Hc.
      specialize (Hav c Hc). by apply negb_true_iff in Hav.
  - intros (u & v & -> & Hu & Hv & Hall). exists u, v. simpl.
    repeat split; try done; apply forallb_forall; intros c Hc;
      apply list_elem_of_In in Hc; apply negb_true_iff, Hall, elem_of_app;
      auto.
Qed.

(** X8.  Updates of the form compose as writes to a record: two updates of
    different fields give the same form in either order, and of two
    updates of one field the later one stands. *)
Theorem reducer_updates_compose (form : gmap key jsstring) (k1 k2 : key)
    (v1 v2 : jsstring) :
  let update k v :=
    {| type := js "update-field"; field := k; payload := Some v |} in
  (k1 ≠ k2 →
   reducer (reducer form (update k1 v1)) (update k2 v2)
   = reducer (reducer form (update k2 v2)) (update k1 v1))
  ∧ reducer (reducer form (update k1 v1)) (update k1 v2)
    = reducer form (update k1 v2).
Proof.
  intros update. unfold reducer, update. cbn [type payload field].
  rewrite !bool_decide_eq_true_2 by done. split.
  - intros Hne. by apply insert_insert_ne.
  - apply insert_insert_eq.
Qed.

(** X9.  The message that the page shows on arrival is an entry of the
    error table, looked up under the [error] parameter of the URL: the
    URL chooses the key and never the text.  Without the parameter, with
    an empty one, or with a key that the table does not hold, no message
    is shown. *)
Theorem initial_error_from_table (errors : error_table)
    (search : search_params) :
  (∀ m, initialError errors search = Some m →
        ∃ k, search_get (js "error") search = Some k ∧ k ≠ []
             ∧ errors !! k = Some m)
  ∧ (search_get (js "error") search = None →
     initialError errors search = None)
  ∧ (search_get (js "error") search = Some [] →
     initialError errors search = None)
  ∧ (∀ k, search_get (js "error") search = Some k → errors !! k = None →
          initialError errors search = None).
Proof.
  unfold initialError.
  destruct (search_get (js "error") search) as [[|c k]|]; simpl;
    repeat split; try done.
  - intros m Hm. by exists (c :: k).
  - by intros k' [= <-] Hk.
Qed.

Lemma startsWith_spec (needle haystack : jsstring) :
  startsWith needle haystack = true ↔ ∃ post, haystack = needle ++ post.
Proof.
  revert haystack. induction needle as [|a needle IH]; intros haystack.
  - simpl. split; [by exists haystack|done].
  - destruct haystack as [|b haystack]; simpl.
    + split; [done|]. by intros (post & ?).
    + rewrite andb_true_iff, N.eqb_eq, IH. split.
      * intros [-> (post & ->)]. by exists post.
      * intros (post & [= -> ->]). split; [done|]. by exists post.
Qed.

Lemma includes_spec (needle haystack : jsstring) :
  includes needle haystack = true ↔
  ∃ pre post, haystack = pre ++ needle ++ post.
Proof.
  induction haystack as [|b haystack IH].
  - simpl. rewrite orb_false_r, startsWith_spec. split.
    + intros (post & ->). by exists [], post.
    + intros (pre & post & H). symmetry in H.
      apply app_eq_nil in H as [-> H]. exists post. by rewrite H.
  - cbn [includes]. rewrite orb_true_iff, startsWith_spec, IH. split.
    + intros [(post & ->)|(pre & post & ->)].
      * by exists [], post.
      * by exists (b :: pre), post.
    + intros (pre & post & H). destruct pre as [|c pre]; simpl in H.
      * left. by exists post.
      * injection H as -> ->. right. by exists pre, post.
Qed.

(** X10.  For an 'improper-payload' answer to the account-creation call
    the page shows the 'weak-password' text exactly when the server's
    message contains the eight code units of 'password' in a row, in lower
    case, and the 'invalid-email-address' text in every other case,
    whatever the message is about. *)
Theorem improper_payload_message (errors : error_table) (backend : server)
    (search : search_params) (s : State) (e : error) :
  let form := signUpForm s in
  let shown :=
    currentError (state (signUp errors backend search form (boot s)).2) in
  name_ok form = true → email_ok form = true → password_ok form = true →
  backend session_payload 0 (signUpRequest form) = failure e →
  Http.code e = js "improper-payload" →
  ((∃ pre post, message e = pre ++ js "password" ++ post) →
     shown = errors !! js "weak-password")
  ∧ (¬ (∃ pre post, message e = pre ++ js "password" ++ post) →
     shown = errors !! js "invalid-email-address").
Proof.
  intros form shown H1 H2 H3 He Hcode.
  destruct (signUp_failure errors backend search s e H1 H2 H3 He)
    as (_ & _ & _ & _ & _ & Hshown).
  subst shown. fold form in Hshown. rewrite Hshown, Hcode.
  rewrite bool_decide_eq_true_2 by done. split.
  - intros Hsub. apply includes_spec in Hsub. by rewrite Hsub.
  - intros Hnot. destruct (includes _ _) eqn:E; [|done].
    destruct Hnot. by apply includes_spec.
Qed.

Lemma improper_payload_message_witness :
  currentError
    (state (signUp Samples.errors (Samples.failing Samples.short_password) []
              Samples.ada (boot (Samples.signUpState Samples.ada))).2)
  = Samples.errors !! js "weak-password".
Proof.
  apply (improper_payload_message Samples.errors
           (Samples.failing Samples.short_password) []
           (Samples.signUpState Samples.ada) Samples.short_password
           eq_refl eq_refl eq_refl eq_refl eq_refl).
  exists (js "The "), (js " is too short."). vm_compute. reflexivity.
Defined.
End signup_checks.

(** ** The take-conversation page: sessions and what is on screen *)
Section take_more.
Import Api Http Runtime VDom Take Calls PageView.

Lemma bind_imap_nil {A B C} (f : B → list C) (g : nat → A → B)
    (l : list A) :
  (∀ i x, f (g i x) = []) → imap g l ≫= f = [].
Proof.
  intros Hnil. revert g Hnil. induction l as [|x l IH]; intros g Hnil;
    [done|].
  cbn. rewrite Hnil. apply IH. intros i y. apply Hnil.
Qed.


(** The heading, the loading indicator and the toast of the take page. *)
Lemma take_page_furniture (renderMarkdown : jsstring → jsstring)
    (s : State) :
  headings (TakeConversationPage renderMarkdown s)
  = [default (js "Conversation") (Conversation.name <$> conversation s)]
  ∧ loading_indicator (TakeConversationPage renderMarkdown s)
    = [Some (flag (bool_decide (currentQuestion s = None)))]
  ∧ toast (TakeConversationPage renderMarkdown s)
    = [Some (opt (currentError s))].
Proof.
  unfold headings, loading_indicator, toast, props_at, TakeConversationPage,
    questionBlock.
  destruct (currentQuestion s) as [q|]; cbn; rewrite ?app_nil_r; [|done].
  rewrite !bind_app. cbn.
  rewrite !bind_imap_nil; [by rewrite ?app_nil_r|..];
    intros i o; unfold OptionItem;
    destruct (Option.type o); reflexivity.
Qed.




End take_more.

Section take_sessions.
Import Api Http Runtime VDom Take Calls PageView.



(** X13.  After an answer that the server refuses the question is not
    brought back: the page shows the server's message in the toast and the
    loading indicator, with no question block, no Next button and no
    selection. *)
Theorem refused_answer_screen (errors : error_table) (backend : server)
    (renderMarkdown : jsstring → jsstring) (s : State)
    (c : Conversation.t) (q : Question.t) (o : Option.t) (e : error) :
  let input := match Option.type o with
               | Option.select => None
               | Option.input => Attribute.value <$> Option.attribute o
               end in
  let w' := (answerQuestion errors backend s (boot s)).2 in
  let page := TakeConversationPage renderMarkdown (state w') in
  conversation s = Some c → currentQuestion s = Some q →
  selectedOption s = Some o →
  (Option.type o = Option.input → is_Some (Option.attribute o)) →
  backend next_payload 0 (answerRequest c q (Option.position o) input)
    = failure e →
  questionBlock renderMarkdown (state w') = nothing
  ∧ by_id (js "next-button") page = []
  ∧ loading_indicator page = [Some (flag true)]
  ∧ toast page = [Some (opt (Some (message e)))]
  ∧ selectedOption (state w') = None.
Proof.
  intros input w' page Hc Hq Ho Hattr He.
  destruct (answerQuestion_submits errors backend s c q o Hc Hq Ho Hattr)
    as (_ & _ & Hsel & Hs).
  fold input w' in Hsel, Hs. rewrite He in Hs.
  destruct Hs as (Herr & Hnone & _).
  destruct (take_page_furniture renderMarkdown (state w'))
    as (_ & Hload & Htoast).
  fold page in Hload, Htoast. rewrite Hload, Htoast, Herr, Hnone.
  assert (questionBlock renderMarkdown (state w') = nothing) as Hblock.
  { unfold questionBlock. by rewrite Hnone. }
  repeat split; try done.
  subst page. unfold TakeConversationPage. rewrite Hblock, Hnone. cbn.
  eval_literals. reflexivity.
Qed.

Lemma refused_answer_screen_witness :
  toast (TakeConversationPage Samples.plain
           (state (answerQuestion Samples.errors
                     (Samples.failing Samples.unreachable)
                     {| currentError := None;
                        conversation := Some Samples.checkin;
                        currentQuestion := Some Samples.opening;
                        selectedOption := Some Samples.yes |}
                     (boot {| currentError := None;
                              conversation := Some Samples.checkin;
                              currentQuestion := Some Samples.opening;
                              selectedOption := Some Samples.yes |})).2))
  = [Some (opt (Some (js "The server is unreachable.")))].
Proof.
  destruct (refused_answer_screen Samples.errors
              (Samples.failing Samples.unreachable) Samples.plain
              {| currentError := None; conversation := Some Samples.checkin;
                 currentQuestion := Some Samples.opening;
                 selectedOption := Some Samples.yes |}
              Samples.checkin Samples.opening Samples.yes
              Samples.unreachable eq_refl eq_refl eq_refl)
    as (_ & _ & _ & Htoast & _).
  - discriminate.
  - reflexivity.
  - exact Htoast.
Defined.



(** X15.  The order in which the answers to the two fetches of the take
    page arrive makes no difference to what the page ends up with, unless
    both fail: then the message shown is that of the answer that arrives
    last. *)
Theorem arrival_order_is_immaterial (backend : server)
    (conversationId : jsstring) :
  let answered := backend conversation_payload 0
                    (conversationRequest conversationId) in
  let listed := backend questions_payload 1
                  (questionsRequest conversationId) in
  let run arrival := (useEffect backend conversationId arrival
                        (boot initialState)).2 in
  (∀ e e', answered = failure e → listed = failure e' →
           currentError (state (run true)) = Some (message e')
           ∧ currentError (state (run false)) = Some (message e)
           ∧ conversation (state (run true)) = conversation (state (run false))
           ∧ currentQuestion (state (run true))
             = currentQuestion (state (run false))
           ∧ requests (run true) = requests (run false))
  ∧ ((isErrorResponse answered && isErrorResponse listed = false) →
     run true = run false).
Proof.
  intros answered listed run. subst answered listed run.
  unfold useEffect, fetchConversation, fetchQuestions, conversationRequest,
    questionsRequest, initialState.
  run_M.
  destruct (backend conversation_payload 0 _) as [c|e1],
           (backend questions_payload 1 _) as [qs|e2];
    run_M; split; try done; by intros ?? [= ->] [= ->].
Qed.
End take_sessions.

Section after_load.
Import Api Http Runtime VDom Calls PageView.

(** X16.  Once both answers are in, the heading of the take page is the
    name of the conversation, or 'Conversation' when it could not be
    fetched, and the loading indicator is still on exactly when there is
    no question to show: the question list could not be fetched, or none
    of its questions is flagged as first. *)
Theorem take_page_after_load (backend : server)
    (renderMarkdown : jsstring → jsstring) (conversationId : jsstring)
    (arrival : bool) :
  let answered := backend conversation_payload 0
                    (conversationRequest conversationId) in
  let listed := backend questions_payload 1
                  (questionsRequest conversationId) in
  let page := Take.TakeConversationPage renderMarkdown
                (state (Take.useEffect backend conversationId arrival
                          (boot Take.initialState)).2) in
  headings page
  = [match answered with
     | success c => Conversation.name c
     | failure _ => js "Conversation"
     end]
  ∧ loading_indicator page
    = [Some (flag match listed with
                  | success questions =>
                      bool_decide (List.find Question.first questions = None)
                  | failure _ => true
                  end)].
Proof.
  intros answered listed page.
  destruct (take_page_furniture renderMarkdown
              (state (Take.useEffect backend conversationId arrival
                        (boot Take.initialState)).2)) as (Hh & Hl & _).
  destruct (useEffect_spec backend conversationId arrival)
    as (_ & _ & _ & Hc & Hq & _).
  fold answered in Hc. fold listed in Hq. fold page in Hh, Hl.
  rewrite Hh, Hl, Hc, Hq. split.
  - by destruct answered.
  - by destruct listed.
Qed.

Lemma list_page_furniture (groot : bool) (s : ConversationList.State) :
  loading_indicator (ConversationList.ConversationListPage groot s)
  = [Some (flag (bool_decide (ConversationList.conversations s = None)
                 && bool_decide (ConversationList.currentError s = None)))]
  ∧ toast (ConversationList.ConversationListPage groot s)
    = [Some (opt (ConversationList.currentError s))].
Proof.
  unfold loading_indicator, toast, props_at,
    ConversationList.ConversationListPage.
  destruct groot, (ConversationList.conversations s) as [l|]; cbn;
    rewrite ?bind_fmap_nil; try done.
  all: intros c; cbn; rewrite ?bind_fmap_nil; done.
Qed.

(** X17.  Once the server has answered, the list page is never left
    loading: after a failure the toast shows the server's message over an
    empty table, after a success there is no message and the table has one
    row per conversation fetched, none when the list is empty. *)
Theorem list_page_after_load (localeCompare : jsstring → jsstring → Z)
    (backend : server) (groot : bool) :
  let page := ConversationList.ConversationListPage groot
                (state (ConversationList.useEffect localeCompare backend
                          (boot ConversationList.initialState)).2) in
  loading_indicator page = [Some (flag false)]
  ∧ match backend conversations_payload 0 conversationsRequest with
    | success fetched =>
        toast page = [Some (opt None)]
        ∧ length (ListView.rows page) = length fetched
    | failure e =>
        toast page = [Some (opt (Some (message e)))]
        ∧ ListView.rows page = []
    end.
Proof.
  intros page.
  destruct (list_page_furniture groot
              (state (ConversationList.useEffect localeCompare backend
                        (boot ConversationList.initialState)).2))
    as (Hl & Ht).
  fold page in Hl, Ht. rewrite Hl, Ht. subst page. rewrite rows_spec.
  destruct (list_useEffect_spec localeCompare backend) as (_ & _ & _ & Hs).
  destruct (backend conversations_payload 0 conversationsRequest)
    as [fetched|e]; destruct Hs as [Hconv Herr]; rewrite Hconv, Herr.
  - repeat split; try done. cbn [default from_option].
    by rewrite length_fmap, sort_perm.
  - done.
Qed.

(** X18.  Conversations that carry the same name are listed in the order
    in which the server returned them: sorting by name does not reorder
    them among themselves. *)
Theorem equal_names_keep_server_order
    (localeCompare : jsstring → jsstring → Z) (backend : server)
    (fetched : list Conversation.t) (n : jsstring) :
  (localeCompare n n <= 0)%Z →
  backend conversations_payload 0 conversationsRequest = success fetched →
  ∃ shown,
    ConversationList.conversations
      (state (ConversationList.useEffect localeCompare backend
                (boot ConversationList.initialState)).2) = Some shown
    ∧ List.filter (λ c, eqb_js (Conversation.name c) n) shown
      = List.filter (λ c, eqb_js (Conversation.name c) n) fetched.
Proof.
  intros Hrefl Hfetched.
  destruct (list_useEffect_spec localeCompare backend) as (_ & _ & _ & Hs).
  rewrite Hfetched in Hs. destruct Hs as [Hs _].
  eexists. split; [exact Hs|]. apply sort_stable.
  intros a b Ha Hb. unfold before.
  assert (∀ x y, eqb_js x y = true → x = y) as Heq.
  { induction x as [|u x IH]; intros [|v y]; simpl; try done.
    intros [->%N.eqb_eq ?]%andb_prop. f_equal. by apply IH. }
  by rewrite (Heq _ _ Ha), (Heq _ _ Hb).
Qed.

Lemma equal_names_keep_server_order_witness :
  ∃ shown,
    ConversationList.conversations
      (state (ConversationList.useEffect Samples.compare_units
                MoreSamples.twins (boot ConversationList.initialState)).2)
    = Some shown
    ∧ List.filter (λ c, eqb_js (Conversation.name c) (js "Goals")) shown
      = List.filter (λ c, eqb_js (Conversation.name c) (js "Goals"))
          [Samples.goals; Samples.checkin; MoreSamples.goals_again].
Proof.
  apply (equal_names_keep_server_order Samples.compare_units
           MoreSamples.twins
           [Samples.goals; Samples.checkin; MoreSamples.goals_again]
           (js "Goals")).
  - vm_compute. discriminate.
  - reflexivity.
Defined.

Lemma sort_sorted_id {A} (comparefn : A → A → Z) (l : list A) :
  Sorted (before comparefn) l → sort comparefn l = l.
Proof.
  induction 1 as [|x l Hl IH Hx]; simpl; [done|]. rewrite IH.
  destruct Hx as [|y l' Hxy]; simpl; [done|].
  unfold before in Hxy. by destruct (Z.leb_spec (comparefn x y) 0); [|lia].
Qed.

(** X19.  A list that the server returns already in ascending order of
    name is shown exactly as returned: the page reorders nothing, not even
    conversations of equal name. *)
Theorem ordered_list_is_kept (localeCompare : jsstring → jsstring → Z)
    (backend : server) (fetched : list Conversation.t) :
  Sorted (λ a b, (localeCompare (Conversation.name a) (Conversation.name b)
                  <= 0)%Z) fetched →
  backend conversations_payload 0 conversationsRequest = success fetched →
  ConversationList.conversations
    (state (ConversationList.useEffect localeCompare backend
              (boot ConversationList.initialState)).2) = Some fetched.
Proof.
  intros Hsorted Hfetched.
  destruct (list_useEffect_spec localeCompare backend) as (_ & _ & _ & Hs).
  rewrite Hfetched in Hs. destruct Hs as [Hs _]. rewrite Hs. f_equal.
  by apply sort_sorted_id.
Qed.

Lemma ordered_list_is_kept_witness :
  ConversationList.conversations
    (state (ConversationList.useEffect Samples.compare_units
              MoreSamples.in_order (boot ConversationList.initialState)).2)
  = Some [Samples.goals; MoreSamples.goals_again; Samples.onboarding;
          Samples.checkin].
Proof.
  apply (ordered_list_is_kept Samples.compare_units MoreSamples.in_order
           [Samples.goals; MoreSamples.goals_again; Samples.onboarding;
            Samples.checkin]); [|reflexivity].
  repeat constructor; vm_compute; discriminate.
Defined.

(** X20.  A failed group join does not undo the sign-up: the user and the
    tokens of the account just created stay in the storage, and the join
    is attempted once. *)
Theorem join_failure_keeps_session (errors : error_table)
    (backend : server) (search : search_params) (s : SignUp.State)
    (user : User) (tokens : Tokens) (code' : jsstring) (e : error) :
  let form := SignUp.signUpForm s in
  let w' := (SignUp.signUp errors backend search form (boot s)).2 in
  name_ok form = true → email_ok form = true → password_ok form = true →
  backend session_payload 0 (signUpRequest form) = success (user, tokens) →
  SignUp.truthy (form !! SignUpForm.code) = Some code' →
  backend unknown_payload 1 (joinRequest code') = failure e →
  stored w' = [(js "user", user); (js "tokens", tokens)]
  ∧ requests w' = [signUpRequest form; joinRequest code'].
Proof.
  intros form w' H1 H2 H3 Hs Hc He.
  destruct (signUp_runs errors backend search s)
    as [(Hrej & _)|[(e' & He' & _)|(u & t & Hs' & Hst & Hrest)]];
    fold form in Hrej || fold form in He' || fold form w' in Hs', Hst, Hrest.
  - unfold name_ok, email_ok, password_ok in *. by rewrite H1, H2, H3 in Hrej.
  - congruence.
  - assert (u = user ∧ t = tokens) as [-> ->] by (split; congruence).
    split; [done|].
    destruct Hrest as [(Hn & _)|(c & Hc' & Hreq & _)]; [congruence|].
    by assert (c = code') as -> by congruence.
Qed.

Lemma join_failure_keeps_session_witness :
  stored (SignUp.signUp Samples.errors Samples.code_refused []
            Samples.ada_with_code
            (boot (Samples.signUpState Samples.ada_with_code))).2
  = [(js "user", JObject []); (js "tokens", JObject [])]
  ∧ requests (SignUp.signUp Samples.errors Samples.code_refused []
                Samples.ada_with_code
                (boot (Samples.signUpState Samples.ada_with_code))).2
    = [signUpRequest Samples.ada_with_code; joinRequest (js "engines")].
Proof.
  exact (join_failure_keeps_session Samples.errors Samples.code_refused []
           (Samples.signUpState Samples.ada_with_code)
           (JObject []) (JObject []) (js "engines") Samples.unknown_code
           eq_refl eq_refl eq_refl eq_refl eq_refl eq_refl).
Defined.
End after_load.
